(** * claude-code-mcp: the invocation and session-correlation layer

    A shallow embedding of [src/server.ts]: the executable resolver
    ([findClaudeCli]), the output interpreter ([parseClaudeOutput]), the
    response builder ([buildResponse]), the working-directory resolver
    ([resolveWorkFolder]), the process runner ([spawnAsync]) and the
    CallTool request handler.

    Conventions.
    - A JavaScript string is a Rocq [string]; a character stands for one
      code unit below 256.
    - What the Node runtime provides (environment, file system, [path],
      [JSON.parse], [child_process.spawn]) is a [Host] record the program is
      parameterised by. A call of [spawn] either throws at once, before a
      child exists, or starts a child that emits events.
    - [throw] is the [Throw] constructor of [Except]; [try]/[catch] is
      [try_catch].
    - The diagnostics written with [console.error], [console.warn] and
      [debugLog], and the first-use flag that only selects one of them, are
      not part of the model. *)

From Stdlib Require Import String Ascii List Bool ZArith Lia.
From Stdlib Require Import Numbers.DecimalString.
Import ListNotations.
Open Scope string_scope.
Open Scope bool_scope.
Set Warnings "-register-all".

(** ** JavaScript strings *)

Module Js.

Definition nl : string := String "010"%char "".
Definition dq : string := String "034"%char "".

(** [WhiteSpace] and [LineTerminator] code units below 256:
    TAB, LF, VT, FF, CR, SP and NBSP. *)
Definition isWhiteSpace (c : ascii) : bool :=
  let n := nat_of_ascii c in
  (n =? 9)%nat || (n =? 10)%nat || (n =? 11)%nat || (n =? 12)%nat ||
  (n =? 13)%nat || (n =? 32)%nat || (n =? 160)%nat.

Fixpoint trimStart (s : string) : string :=
  match s with
  | String c s' => if isWhiteSpace c then trimStart s' else s
  | EmptyString => EmptyString
  end.

Definition rev_string (s : string) : string :=
  string_of_list_ascii (rev (list_ascii_of_string s)).

Definition trimEnd (s : string) : string :=
  rev_string (trimStart (rev_string s)).

(** [String.prototype.trim] *)
Definition trim (s : string) : string := trimEnd (trimStart s).

(** [s.startsWith(p)] *)
Definition startsWith (s p : string) : bool := String.prefix p s.

(** [s.includes(p)] *)
Fixpoint includes (s p : string) : bool :=
  String.prefix p s ||
  match s with
  | String _ s' => includes s' p
  | EmptyString => false
  end.

(** A string made of white space only (the empty string included). *)
Definition blankb (s : string) : bool :=
  forallb isWhiteSpace (list_ascii_of_string s).

Definition blank (s : string) : Prop := blankb s = true.

(** Number-to-string conversion of an integral number, as a template
    literal performs it. *)
Definition Z_toString (z : Z) : string := NilZero.string_of_int (Z.to_int z).

(** ** JavaScript values *)

Inductive JsValue : Type :=
| JUndefined
| JNull
| JBool (b : bool)
| JNumber (n : Z)
| JString (s : string)
| JArray (elems : list JsValue)
| JObject (fields : list (string * JsValue)).

Definition JsObject : Type := list (string * JsValue).

Definition typeof (v : JsValue) : string :=
  match v with
  | JUndefined => "undefined"
  | JNull => "object"
  | JBool _ => "boolean"
  | JNumber _ => "number"
  | JString _ => "string"
  | JArray _ => "object"
  | JObject _ => "object"
  end.

(** [ToBoolean] *)
Definition truthy (v : JsValue) : bool :=
  match v with
  | JUndefined | JNull => false
  | JBool b => b
  | JNumber n => negb (n =? 0)%Z
  | JString s => negb (s =? "")
  | JArray _ | JObject _ => true
  end.

(** Own property lookup in an object literal. *)
Fixpoint lookup (o : JsObject) (k : string) : option JsValue :=
  match o with
  | [] => None
  | (k', v) :: o' => if k' =? k then Some v else lookup o' k
  end.

(** ['k' in o] *)
Definition has (o : JsObject) (k : string) : bool :=
  match lookup o k with Some _ => true | None => false end.

(** [o.k] on a record of call arguments. *)
Definition prop (o : JsObject) (k : string) : JsValue :=
  match lookup o k with Some v => v | None => JUndefined end.

(** [o?.k] where [o] may be [undefined]. *)
Definition opt_prop (o : option JsObject) (k : string) : JsValue :=
  match o with Some o' => prop o' k | None => JUndefined end.

End Js.
Import Js.

(** ** Errors and exceptions *)

Inductive ErrorCode : Type := InvalidParams | MethodNotFound | InternalError.

(** An [Error] object as the catch blocks of the handler read it:
    [message] and the optional [stderr], [stdout], [signal] and [code]. *)
Record ErrorObject : Type := mkErrorObject {
  message : string;
  e_stderr : option string;
  e_stdout : option string;
  e_signal : option string;
  e_code : option string
}.

(** [new Error(m)] *)
Definition new_Error (m : string) : ErrorObject :=
  mkErrorObject m None None None None.

Inductive Exn : Type :=
| McpError (code : ErrorCode) (msg : string)
| Error (e : ErrorObject).

Inductive Except (A : Type) : Type :=
| Return (a : A)
| Throw (e : Exn).
Arguments Return {A} a.
Arguments Throw {A} e.

Definition bind {A B : Type} (m : Except A) (k : A -> Except B) : Except B :=
  match m with
  | Return a => k a
  | Throw e => Throw e
  end.

Definition try_catch {A : Type} (body : Except A) (handler : Exn -> Except A)
  : Except A :=
  match body with
  | Return a => Return a
  | Throw e => handler e
  end.

Declare Scope except_scope.
Delimit Scope except_scope with except.
Notation "x <- m ;; k" := (bind m (fun x => k))
  (at level 61, m at next level, right associativity) : except_scope.
Open Scope except_scope.

(** ** The host: what the Node runtime provides *)

(** Events a child process object emits towards [spawnAsync]. *)
Inductive ChildEvent : Type :=
| StdoutData (chunk : string)
| StderrData (chunk : string)
| ErrorEvent (msg : string) (path syscall : option string)
| CloseEvent (code : option Z) (signal : option string).

Record SpawnOptions : Type := mkSpawnOptions {
  timeout : Z;
  cwd : string
}.

Record SpawnCall : Type := mkSpawnCall {
  command : string;
  args : list string;
  options : SpawnOptions
}.

(** What [child_process.spawn] throws synchronously: the [TypeError] of its
    argument validation (a file, argument or directory with a NUL code
    unit), whose message starts with [The] and whose [code] is
    [ERR_INVALID_ARG_VALUE]; or the errno exception of a launch failure that
    is not reported by an error event (a working directory that is a file,
    say), whose message is [spawn] followed by its [code]. *)
Inductive SpawnThrow : Type :=
| InvalidArgValue (detail : string)
| ErrnoException (code : string).

(** The thrown value as the catch blocks read it. *)
Definition thrown_error (t : SpawnThrow) : ErrorObject :=
  match t with
  | InvalidArgValue detail =>
      mkErrorObject ("The " ++ detail) None None None
                    (Some "ERR_INVALID_ARG_VALUE")
  | ErrnoException code =>
      mkErrorObject ("spawn " ++ code) None None None (Some code)
  end.

(** A call of [child_process.spawn]. *)
Inductive SpawnResult : Type :=
| Spawned (events : list ChildEvent)
| Throws (t : SpawnThrow).

Record Host : Type := mkHost {
  (** [process.env.CLAUDE_CLI_NAME] *)
  env_CLAUDE_CLI_NAME : option string;
  (** [os.homedir()] *)
  homedir : string;
  (** [fs.existsSync] *)
  existsSync : string -> bool;
  (** [path.isAbsolute] *)
  path_isAbsolute : string -> bool;
  (** [path.join] *)
  join : list string -> string;
  (** [path.resolve] *)
  pathResolve : string -> string;
  (** [JSON.parse]; [None] when it throws a [SyntaxError] *)
  JSON_parse : string -> option JsValue;
  (** [child_process.spawn]: it throws, or the child object it returns
      emits these events, in order *)
  spawn : SpawnCall -> SpawnResult
}.

(** ** Results *)

Record NormalizedResult : Type := mkNormalizedResult {
  resultText : string;
  sessionId : option string;
  isError : option bool
}.

Record TextContent : Type := mkTextContent {
  type : string;
  text : string
}.

Record StructuredContent : Type := mkStructuredContent {
  threadId : string;
  sc_content : string
}.

Record ExtendedServerResult : Type := mkExtendedServerResult {
  content : list TextContent;
  r_isError : bool;
  structuredContent : option StructuredContent
}.

Section Server.

Context (host : Host).

(** ** Executable resolver *)

Definition relative_looking (customCliName : string) : bool :=
  startsWith customCliName "./" || startsWith customCliName "../"
  || includes customCliName "/".

Definition invalid_cli_name_message : string :=
  "Invalid CLAUDE_CLI_NAME: Relative paths are not allowed. Use either a simple name (e.g., 'claude') or an absolute path (e.g., '/tmp/claude-test')".

(** [customCliName || 'claude'] *)
Definition cliName_of (customCliName : option string) : string :=
  match customCliName with
  | Some c => if c =? "" then "claude" else c
  | None => "claude"
  end.

(** The tail of [findClaudeCli], after the override has been inspected. *)
Definition local_or_path (customCliName : option string) : string :=
  let cliName := cliName_of customCliName in
  let userPath := join host [homedir host; ".claude"; "local"; "claude"] in
  if existsSync host userPath then userPath else cliName.

Definition findClaudeCli : Except string :=
  let customCliName := env_CLAUDE_CLI_NAME host in
  match customCliName with
  | Some c =>
      if negb (c =? "") then
        if path_isAbsolute host c then Return c
        else if relative_looking c then
          Throw (Error (new_Error invalid_cli_name_message))
        else Return (local_or_path customCliName)
      else Return (local_or_path customCliName)
  | None => Return (local_or_path customCliName)
  end.

(** ** Output interpreter *)

(** [parsed.k] for an arbitrary parsed value: a [TypeError] on [null] and
    [undefined], the own property of an object, [undefined] otherwise (none
    of the three keys read below is inherited from a prototype, and none is
    an index or [length]). *)
Definition member (parsed : JsValue) (k : string) : Except JsValue :=
  match parsed with
  | JUndefined | JNull =>
      Throw (Error (new_Error ("Cannot read properties of " ++
        (match parsed with JNull => "null" | _ => "undefined" end) ++
        " (reading '" ++ k ++ "')")))
  | JObject o => Return (prop o k)
  | _ => Return JUndefined
  end.

Definition raw_result (stdout : string) : NormalizedResult :=
  mkNormalizedResult stdout None None.

(** The body of the [try] block. *)
Definition parseClaudeOutput_try (stdout : string) : Except NormalizedResult :=
  parsed <- match JSON_parse host stdout with
            | Some v => Return v
            | None => Throw (Error (new_Error "Unexpected token"))
            end ;;
  result <- member parsed "result" ;;
  match result with
  | JString r =>
      session_id <- member parsed "session_id" ;;
      is_error <- member parsed "is_error" ;;
      Return (mkNormalizedResult r
                (match session_id with JString s => Some s | _ => None end)
                (match is_error with JBool b => Some b | _ => None end))
  | _ => Return (raw_result stdout)
  end.

Definition parseClaudeOutput (stdout : string) : Except NormalizedResult :=
  try_catch (parseClaudeOutput_try stdout)
            (fun _ => Return (raw_result stdout)).

(** ** Response builder *)

(** [isError ?? false] *)
Definition nullish_false (isError : option bool) : bool :=
  match isError with Some b => b | None => false end.

Definition buildResponse (resultText : string) (sessionId : option string)
    (isError : option bool) : ExtendedServerResult :=
  let response :=
    mkExtendedServerResult [mkTextContent "text" resultText]
                           (nullish_false isError) None in
  match sessionId with
  | Some sid =>
      if negb (sid =? "") then
        mkExtendedServerResult (content response) (r_isError response)
          (Some (mkStructuredContent sid resultText))
      else response
  | None => response
  end.

(** ** Working-directory resolver *)

Definition resolveWorkFolder (workFolder : JsValue) : Except string :=
  match workFolder with
  | JString w =>
      if trim w =? "" then
        Throw (McpError InvalidParams "workFolder cannot be an empty string")
      else if truthy workFolder then
        let resolvedCwd := pathResolve host w in
        if existsSync host resolvedCwd then Return resolvedCwd
        else Throw (McpError InvalidParams
                      ("Specified workFolder does not exist: " ++ resolvedCwd))
      else Return (homedir host)
  | _ => Return (homedir host)
  end.

(** ** Process runner *)

Record SpawnState : Type := mkSpawnState {
  stdout : string;
  stderr : string;
  settled : bool
}.

(** A call of the promise's [resolve] or [reject]. *)
Inductive Settlement : Type :=
| Resolve (out err : string)
| Reject (e : ErrorObject).

Definition spawn_init : SpawnState := mkSpawnState "" "" false.

(** [`${code}`] for [code: number | null] *)
Definition code_toString (code : option Z) : string :=
  match code with
  | Some z => Z_toString z
  | None => "null"
  end.

(** [if (x) errorMessage += label + x] for an optional string [x] *)
Definition append_if_present (label : string) (x : option string)
    (errorMessage : string) : string :=
  match x with
  | Some v => if negb (v =? "") then errorMessage ++ label ++ v
              else errorMessage
  | None => errorMessage
  end.

Definition on_error (st : SpawnState) (msg : string)
    (path syscall : option string) : SpawnState * option Settlement :=
  if settled st then (st, None)
  else
    let st' := mkSpawnState (stdout st) (stderr st) true in
    let errorMessage := "Spawn error: " ++ msg in
    let errorMessage := append_if_present " | Path: " path errorMessage in
    let errorMessage := append_if_present " | Syscall: " syscall errorMessage in
    let errorMessage := errorMessage ++ nl ++ "Stderr: " ++ trim (stderr st) in
    (st', Some (Reject (new_Error errorMessage))).

Definition close_failure_message (code : option Z) (out err : string)
  : string :=
  "Command failed with exit code " ++ code_toString code ++ nl ++
  "Stderr: " ++ trim err ++ nl ++ "Stdout: " ++ trim out.

Definition on_close (st : SpawnState) (code : option Z)
  : SpawnState * option Settlement :=
  if settled st then (st, None)
  else
    let st' := mkSpawnState (stdout st) (stderr st) true in
    match code with
    | Some 0%Z => (st', Some (Resolve (stdout st) (stderr st)))
    | _ => (st', Some (Reject (new_Error
               (close_failure_message code (stdout st) (stderr st)))))
    end.

(** One event delivered to the listeners [spawnAsync] registered. *)
Definition dispatch (st : SpawnState) (ev : ChildEvent)
  : SpawnState * option Settlement :=
  match ev with
  | StdoutData data => (mkSpawnState (stdout st ++ data) (stderr st) (settled st), None)
  | StderrData data => (mkSpawnState (stdout st) (stderr st ++ data) (settled st), None)
  | ErrorEvent msg path syscall => on_error st msg path syscall
  | CloseEvent code _ => on_close st code
  end.

(** All events of a run: the final listener state and the calls of
    [resolve]/[reject] made, in order. *)
Fixpoint deliver (st : SpawnState) (evs : list ChildEvent)
  : SpawnState * list Settlement :=
  match evs with
  | [] => (st, [])
  | ev :: evs' =>
      let (st1, call) := dispatch st ev in
      let (st2, calls) := deliver st1 evs' in
      (st2, match call with Some c => c :: calls | None => calls end)
  end.

Definition settlements (evs : list ChildEvent) : list Settlement :=
  snd (deliver spawn_init evs).

(** The promise [spawnAsync] returns. A throw of [spawn] inside the executor
    rejects it with the thrown error. Otherwise it takes the value of the
    first call of [resolve] or [reject], and stays pending ([None]) when
    there is none. *)
Definition spawnAsync (command : string) (args : list string)
    (options : SpawnOptions) : option Settlement :=
  match spawn host (mkSpawnCall command args options) with
  | Throws t => Some (Reject (thrown_error t))
  | Spawned evs => hd_error (settlements evs)
  end.

(** ** Request handler *)

Variable claudeCliPath : string.

Definition executionTimeoutMs : Z := 1800000.

Inductive Completion : Type :=
| Fulfilled (r : ExtendedServerResult)
| Rejected (e : Exn)
| Pending.

(** What one call of the handler did: the calls of [spawn] it made and how
    its promise completed. *)
Record HandlerRun : Type := mkHandlerRun {
  spawned : list SpawnCall;
  completion : Completion
}.

Definition cli_not_found_note : string :=
  nl ++ "Claude CLI not found. Ensure it is installed and in your PATH, or set CLAUDE_CLI_NAME.".

(** The [catch] block of either tool, for a caught [Error]. *)
Definition execution_failure (error : ErrorObject) : Exn :=
  let errorMessage :=
    if message error =? "" then "Unknown error" else message error in
  let errorMessage :=
    append_if_present (nl ++ "Stderr: ") (e_stderr error) errorMessage in
  let errorMessage :=
    append_if_present (nl ++ "Stdout: ") (e_stdout error) errorMessage in
  let errorMessage :=
    if includes (message error) "ENOENT"
    then errorMessage ++ cli_not_found_note else errorMessage in
  if match e_signal error with Some sg => sg =? "SIGTERM" | None => false end
     || includes (message error) "ETIMEDOUT"
     || match e_code error with Some c => c =? "ETIMEDOUT" | None => false end
  then McpError InternalError
         ("Claude CLI command timed out after " ++
          Z_toString (executionTimeoutMs / 1000) ++ "s. Details: " ++
          errorMessage)
  else McpError InternalError
         ("Claude CLI execution failed: " ++ errorMessage).

Definition catch_block (error : Exn) : Exn :=
  match error with
  | McpError _ _ => error
  | Error e => execution_failure e
  end.

(** The [try] block of either tool. *)
Definition invoke (claudeProcessArgs : list string) (effectiveCwd : string)
  : HandlerRun :=
  let options := mkSpawnOptions executionTimeoutMs effectiveCwd in
  mkHandlerRun
    [mkSpawnCall claudeCliPath claudeProcessArgs options]
    match spawnAsync claudeCliPath claudeProcessArgs options with
    | None => Pending
    | Some (Resolve out _) =>
        match parseClaudeOutput out with
        | Return r =>
            Fulfilled (buildResponse (resultText r) (sessionId r) (isError r))
        | Throw e => Rejected (catch_block e)
        end
    | Some (Reject e) => Rejected (catch_block (Error e))
    end.

(** [!v || typeof v !== 'string'] guards a required parameter. *)
Definition required_nonempty_string (v : JsValue) (name : string)
  : Except string :=
  match v with
  | JString s =>
      if truthy v then Return s
      else Throw (McpError InvalidParams
                    ("Missing or invalid required parameter: " ++ name))
  | _ => Throw (McpError InvalidParams
                  ("Missing or invalid required parameter: " ++ name))
  end.

Definition missing_prompt_message : string :=
  "Missing or invalid required parameter: prompt (must be an object with a string "
  ++ dq ++ "prompt" ++ dq ++ " property) for claude_code tool".

(** The fresh-conversation guard on [toolArguments]. *)
Definition required_prompt (toolArguments : option JsObject) : Except string :=
  match toolArguments with
  | Some o =>
      if has o "prompt" then
        match prop o "prompt" with
        | JString p => Return p
        | _ => Throw (McpError InvalidParams missing_prompt_message)
        end
      else Throw (McpError InvalidParams missing_prompt_message)
  | None => Throw (McpError InvalidParams missing_prompt_message)
  end.

(** Everything the handler does before the [try] block: the argument vector
    and the working directory of the invocation, or the error thrown. *)
Definition validate (toolName : string) (toolArguments : option JsObject)
  : Except (list string * string) :=
  if negb (toolName =? "claude_code") && negb (toolName =? "claude_code_reply")
  then Throw (McpError MethodNotFound ("Tool " ++ toolName ++ " not found"))
  else if toolName =? "claude_code_reply" then
    threadId <- required_nonempty_string
                  (opt_prop toolArguments "threadId") "threadId" ;;
    prompt <- required_nonempty_string
                (opt_prop toolArguments "prompt") "prompt" ;;
    effectiveCwd <- resolveWorkFolder (opt_prop toolArguments "workFolder") ;;
    Return (["--dangerously-skip-permissions"; "-p"; "--output-format"; "json";
             "--resume"; threadId; prompt], effectiveCwd)
  else
    prompt <- required_prompt toolArguments ;;
    effectiveCwd <- resolveWorkFolder (opt_prop toolArguments "workFolder") ;;
    Return (["--dangerously-skip-permissions"; "-p"; "--output-format"; "json";
             prompt], effectiveCwd).

(** The [CallToolRequestSchema] handler. *)
Definition callTool (toolName : string) (toolArguments : option JsObject)
  : HandlerRun :=
  match validate toolName toolArguments with
  | Throw e => mkHandlerRun [] (Rejected e)
  | Return (claudeProcessArgs, effectiveCwd) =>
      invoke claudeProcessArgs effectiveCwd
  end.

End Server.


(** The required fields of an operation as its guards accept them: a string
    [prompt] for the fresh conversation; non-empty strings [threadId] and
    [prompt] for the resumed one. *)
Definition valid_required_fields (toolName : string)
    (toolArguments : option JsObject) : Prop :=
  exists p, opt_prop toolArguments "prompt" = JString p /\
    (toolName = "claude_code" \/
     (toolName = "claude_code_reply" /\ p <> "" /\
      exists t, opt_prop toolArguments "threadId" = JString t /\ t <> "")).

(** ** What the specification says, in its own words *)

Module Spec.

(** A field of structured data, when it is a string. *)
Definition string_field (parsed : JsValue) (k : string) : option string :=
  match parsed with
  | JObject o =>
      match lookup o k with Some (JString r) => Some r | _ => None end
  | _ => None
  end.

(** A field of structured data, when it is a boolean. *)
Definition bool_field (parsed : JsValue) (k : string) : option bool :=
  match parsed with
  | JObject o =>
      match lookup o k with Some (JBool b) => Some b | _ => None end
  | _ => None
  end.

(** The output interpreter of section 4.3. *)
Definition parse (host : Host) (stdoutText : string) : NormalizedResult :=
  match JSON_parse host stdoutText with
  | Some parsed =>
      match string_field parsed "result" with
      | Some result =>
          mkNormalizedResult result (string_field parsed "session_id")
                             (bool_field parsed "is_error")
      | None => raw_result stdoutText
      end
  | None => raw_result stdoutText
  end.

(** Output accumulated from the data events of a run. *)
Fixpoint stdout_of (evs : list ChildEvent) : string :=
  match evs with
  | StdoutData d :: evs' => d ++ stdout_of evs'
  | _ :: evs' => stdout_of evs'
  | [] => ""
  end.

Fixpoint stderr_of (evs : list ChildEvent) : string :=
  match evs with
  | StderrData d :: evs' => d ++ stderr_of evs'
  | _ :: evs' => stderr_of evs'
  | [] => ""
  end.

(** The process-level error event and the close event. *)
Definition settling (ev : ChildEvent) : bool :=
  match ev with
  | ErrorEvent _ _ _ | CloseEvent _ _ => true
  | StdoutData _ | StderrData _ => false
  end.

(** An argument record with one key left out. *)
Fixpoint omit (k : string) (o : JsObject) : JsObject :=
  match o with
  | [] => []
  | (k', v) :: o' => if k' =? k then omit k o' else (k', v) :: omit k o'
  end.

End Spec.

(** ** A test host

    A small stand-in for the runtime, in the manner of the repository's
    mocked CLI: POSIX-style paths, a file system with three entries besides
    an optional local installation, a [JSON.parse] that knows three
    documents and a child whose events are given. *)

Module Demo.

Definition ok_json : string :=
  "{" ++ dq ++ "result" ++ dq ++ ":" ++ dq ++ "ok" ++ dq ++ "," ++
  dq ++ "session_id" ++ dq ++ ":" ++ dq ++ "abc123" ++ dq ++ "}".

Definition empty_session_json : string :=
  "{" ++ dq ++ "result" ++ dq ++ ":" ++ dq ++ "ok" ++ dq ++ "," ++
  dq ++ "session_id" ++ dq ++ ":" ++ dq ++ dq ++ "," ++
  dq ++ "is_error" ++ dq ++ ":true}".

Definition parse_json (text : string) : option JsValue :=
  if text =? ok_json then
    Some (JObject [("result", JString "ok"); ("session_id", JString "abc123")])
  else if text =? empty_session_json then
    Some (JObject [("result", JString "ok"); ("session_id", JString "");
                   ("is_error", JBool true)])
  else if text =? "null" then Some JNull
  else if text =? "{}" then Some (JObject [])
  else None.

Definition local_install : string := "/home/u/.claude/local/claude".

Definition host (override : option string) (local_installed : bool)
    (events : list ChildEvent) : Host :=
  mkHost override "/home/u"
    (fun p => (p =? "/home/u") || (p =? "/tmp") || (p =? "/srv/app")
              || (local_installed && (p =? local_install)))
    (fun p => startsWith p "/")
    (String.concat "/")
    (fun p => if startsWith p "/" then p else "/srv/app/" ++ p)
    parse_json
    (fun _ => Spawned events).

(** A host on which every call of [spawn] throws. *)
Definition throwing_host (t : SpawnThrow) : Host :=
  mkHost None "/home/u" (fun p => (p =? "/home/u") || (p =? "/tmp"))
    (fun p => startsWith p "/")
    (String.concat "/")
    (fun p => if startsWith p "/" then p else "/srv/app/" ++ p)
    parse_json
    (fun _ => Throws t).

Definition cli : string := "claude".

End Demo.

(** ** The server object and its tool list *)

(** An entry of the [ListToolsRequestSchema] answer: the tool's name and,
    of its [inputSchema], the properties with their JSON types and the
    [required] array. The [description] texts are left out. *)
Record ToolDecl : Type := mkToolDecl {
  tool_name : string;
  tool_properties : list (string * string);
  tool_required : list string
}.

Definition listTools : list ToolDecl :=
  [mkToolDecl "claude_code"
     [("prompt", "string"); ("workFolder", "string")]
     ["prompt"];
   mkToolDecl "claude_code_reply"
     [("threadId", "string"); ("prompt", "string"); ("workFolder", "string")]
     ["threadId"; "prompt"]].

(** A tool call on a server object: the constructor resolves the executable
    once, with [findClaudeCli], and the handler uses what it found. A
    constructor that throws leaves no server to call. *)
Definition serve (host : Host) (toolName : string)
    (toolArguments : option JsObject) : Except HandlerRun :=
  claudeCliPath <- findClaudeCli host ;;
  Return (callTool host claudeCliPath toolName toolArguments).

(** ** Test utilities *)

Module TestHelpers.

(** [getTestMockBaseDir], given [process.env.HOME] and [os.homedir()]. *)
Definition getTestMockBaseDir (env_HOME : option string) (os_homedir : string)
  : string :=
  let home := match env_HOME with
              | Some h => if negb (h =? "") then h else os_homedir
              | None => os_homedir
              end in
  if (home =? "") || (home =? "/home/node") then "/workspace" else home.

End TestHelpers.

Module TestClient.

(** [s.split('\n')] *)
Fixpoint split_newline (s : string) : list string :=
  match s with
  | EmptyString => [EmptyString]
  | String c s' =>
      if Ascii.eqb c "010"%char then EmptyString :: split_newline s'
      else match split_newline s' with
           | l :: ls => String c l :: ls
           | [] => [String c EmptyString]
           end
  end.

(** The part of [MCPTestClient] that [handleData] reads and writes: the
    line buffer and the keys of [pendingRequests]. *)
Record Client : Type := mkClient {
  buffer : string;
  pendingRequests : list Z
}.

(** What [handleData] does to the outside: it resolves the promise of a
    pending request, or emits a [notification] or a [parseError] event. *)
Inductive Emitted : Type :=
| Resolved (id : Z) (response : JsValue)
| Notification (response : JsValue)
| ParseError (msg : string).

(** [pendingRequests.has(id)] for an arbitrary value: the keys are numbers. *)
Definition has_pending (pending : list Z) (id : JsValue) : bool :=
  match id with
  | JNumber n => existsb (Z.eqb n) pending
  | _ => false
  end.

(** [pendingRequests.delete(id)] *)
Definition delete_pending (pending : list Z) (n : Z) : list Z :=
  filter (fun k => negb (Z.eqb n k)) pending.

(** The [try] block of the loop body; [response.id] is read as [member]
    reads a key that no prototype provides. *)
Definition handle_line_try (host : Host) (pending : list Z) (line : string)
  : Except (list Z * list Emitted) :=
  response <- match JSON_parse host line with
              | Some v => Return v
              | None => Throw (Error (new_Error "Unexpected token"))
              end ;;
  id <- member response "id" ;;
  if truthy id && has_pending pending id then
    match id with
    | JNumber n => Return (delete_pending pending n, [Resolved n response])
    | _ => Return (pending, [Notification response])
    end
  else Return (pending, [Notification response]).

(** The body of the loop over the complete lines. *)
Definition handle_line (host : Host) (pending : list Z) (line : string)
  : list Z * list Emitted :=
  if trim line =? "" then (pending, [])
  else
    match handle_line_try host pending line with
    | Return r => r
    | Throw _ =>
        (pending,
         [ParseError ("Failed to parse server response: "
                      ++ substring 0 200 line)])
    end.

Fixpoint handle_lines (host : Host) (pending : list Z) (lines : list string)
  : list Z * list Emitted :=
  match lines with
  | [] => (pending, [])
  | line :: lines' =>
      let (pending1, out1) := handle_line host pending line in
      let (pending2, out2) := handle_lines host pending1 lines' in
      (pending2, (out1 ++ out2)%list)
  end.

(** [handleData]: [lines.pop() || ''] is the last piece, the loop runs over
    the pieces before it. *)
Definition handleData (host : Host) (c : Client) (data : string)
  : Client * list Emitted :=
  let buffer0 := buffer c ++ data in
  let lines := split_newline buffer0 in
  let (pending', out) :=
    handle_lines host (pendingRequests c) (removelast lines) in
  (mkClient (last lines "") pending', out).

End TestClient.

(** Decides the tests on a literal tool name. *)
Ltac tool_name := cbn [String.eqb Ascii.eqb Bool.eqb negb andb].

(** ** Concrete runs *)

Example trim_example :
  trim (" a b" ++ nl) = "a b" /\ trim ("  " ++ nl) = "" /\ trim "" = "".
Proof. repeat split. Qed.

Example includes_example :
  includes "spawn claude ENOENT" "ENOENT" = true /\
  includes "claude" "/" = false.
Proof. split; reflexivity. Qed.

Example code_toString_example :
  code_toString (Some 1%Z) = "1" /\ code_toString (Some (-2)%Z) = "-2" /\
  code_toString (Some 0%Z) = "0" /\ code_toString None = "null" /\
  Z_toString (executionTimeoutMs / 1000) = "1800".
Proof. repeat split. Qed.

Example local_install_path :
  join (Demo.host None true []) ["/home/u"; ".claude"; "local"; "claude"]
  = Demo.local_install.
Proof. reflexivity. Qed.

(** Section 8: structured output with a session identifier. *)
Example parse_structured :
  parseClaudeOutput (Demo.host None false []) Demo.ok_json
  = Return (mkNormalizedResult "ok" (Some "abc123") None).
Proof. reflexivity. Qed.

(** Section 8: plain text output. *)
Example parse_plain_text :
  parseClaudeOutput (Demo.host None false []) "done"
  = Return (mkNormalizedResult "done" None None).
Proof. reflexivity. Qed.

(** [JSON.parse('null')] succeeds; reading [parsed.result] throws and the
    [catch] block answers. *)
Example parse_null :
  parseClaudeOutput_try (Demo.host None false []) "null"
  = Throw (Error (new_Error "Cannot read properties of null (reading 'result')"))
  /\ parseClaudeOutput (Demo.host None false []) "null"
     = Return (mkNormalizedResult "null" None None).
Proof. split; reflexivity. Qed.

(** Section 8: exit code 1 with captured stderr. *)
Example exit_1_boom :
  completion
    (callTool (Demo.host None false [StderrData "boom"; CloseEvent (Some 1%Z) None])
       Demo.cli "claude_code" (Some [("prompt", JString "hi")]))
  = Rejected (McpError InternalError
      ("Claude CLI execution failed: Command failed with exit code 1" ++ nl ++
       "Stderr: boom" ++ nl ++ "Stdout: ")).
Proof. reflexivity. Qed.

(** Section 8: a successful run that declares a session. *)
Example run_with_session :
  callTool (Demo.host None false [StdoutData Demo.ok_json; CloseEvent (Some 0%Z) None])
           Demo.cli "claude_code"
           (Some [("prompt", JString "hi"); ("workFolder", JString "/tmp")])
  = mkHandlerRun
      [mkSpawnCall "claude"
         ["--dangerously-skip-permissions"; "-p"; "--output-format"; "json"; "hi"]
         (mkSpawnOptions 1800000 "/tmp")]
      (Fulfilled (mkExtendedServerResult [mkTextContent "text" "ok"] false
                    (Some (mkStructuredContent "abc123" "ok")))).
Proof. reflexivity. Qed.

(** A spawn failure: the error event, then the close event Node emits. *)
Example spawn_enoent :
  completion
    (callTool (Demo.host None false
                 [ErrorEvent "spawn claude ENOENT" (Some "claude") (Some "spawn claude");
                  CloseEvent (Some (-2)%Z) None])
       Demo.cli "claude_code" (Some [("prompt", JString "hi")]))
  = Rejected (McpError InternalError
      ("Claude CLI execution failed: Spawn error: spawn claude ENOENT | Path: claude | Syscall: spawn claude"
       ++ nl ++ "Stderr: " ++ cli_not_found_note)).
Proof. reflexivity. Qed.

(** A prompt with a NUL code unit: [spawn] throws in the promise executor,
    no child exists, and the [catch] block reports the thrown error. *)
Example spawn_throws_on_nul :
  callTool (Demo.throwing_host
              (InvalidArgValue "argument 'args[4]' must be a string without null bytes"))
           Demo.cli "claude_code"
           (Some [("prompt", JString ("a" ++ String "000" "b"))])
  = mkHandlerRun
      [mkSpawnCall "claude"
         ["--dangerously-skip-permissions"; "-p"; "--output-format"; "json";
          "a" ++ String "000" "b"]
         (mkSpawnOptions 1800000 "/home/u")]
      (Rejected (McpError InternalError
         "Claude CLI execution failed: The argument 'args[4]' must be a string without null bytes")).
Proof. reflexivity. Qed.

(** A launch failure that [spawn] throws: its [code] is read by the timeout
    test of the [catch] block. *)
Example spawn_throws_errno :
  completion
    (callTool (Demo.throwing_host (ErrnoException "ENOTDIR")) Demo.cli
       "claude_code" (Some [("prompt", JString "hi"); ("workFolder", JString "/tmp")]))
  = Rejected (McpError InternalError "Claude CLI execution failed: spawn ENOTDIR").
Proof. reflexivity. Qed.

(** ** Strings *)

Section StringFacts.

Lemma trimStart_blank (s : string) : blank s -> trimStart s = "".
Proof.
  unfold blank, blankb.
  induction s as [|c s IH]; simpl; [reflexivity|].
  intros H. apply andb_true_iff in H as [Hc Hs].
  rewrite Hc. now apply IH.
Qed.

Lemma trimStart_empty (s : string) : trimStart s = "" -> blank s.
Proof.
  unfold blank, blankb.
  induction s as [|c s IH]; simpl; [reflexivity|].
  destruct (isWhiteSpace c) eqn:Hc; [intros H; now rewrite IH | discriminate].
Qed.

Lemma trimStart_idempotent (s : string) : trimStart (trimStart s) = trimStart s.
Proof.
  induction s as [|c s IH]; simpl; [reflexivity|].
  destruct (isWhiteSpace c) eqn:Hc; [exact IH | simpl; now rewrite Hc].
Qed.

Lemma rev_string_empty (s : string) : rev_string s = "" -> s = "".
Proof.
  unfold rev_string. intros H.
  apply (f_equal list_ascii_of_string) in H.
  rewrite list_ascii_of_string_of_list_ascii in H. simpl in H.
  apply (f_equal (@rev ascii)) in H. rewrite rev_involutive in H. simpl in H.
  apply (f_equal string_of_list_ascii) in H.
  now rewrite string_of_list_ascii_of_string in H.
Qed.

Lemma blank_rev_string (s : string) : blank (rev_string s) -> blank s.
Proof.
  unfold blank, blankb, rev_string.
  rewrite list_ascii_of_string_of_list_ascii, !forallb_forall.
  intros H c Hc. apply H. now apply in_rev in Hc.
Qed.

(** [trim] answers the empty string exactly on the blank strings. *)
Lemma trim_empty_iff (s : string) : trim s = "" <-> blank s.
Proof.
  unfold trim, trimEnd. split.
  - intros H. apply rev_string_empty, trimStart_empty, blank_rev_string in H.
    apply trimStart_blank in H. rewrite trimStart_idempotent in H.
    now apply trimStart_empty.
  - intros H. now rewrite (trimStart_blank s H).
Qed.

Lemma trim_eqb_blankb (s : string) : (trim s =? "") = blankb s.
Proof.
  destruct (blankb s) eqn:Hb.
  - apply String.eqb_eq. now apply trim_empty_iff.
  - apply String.eqb_neq. intros H. apply trim_empty_iff in H.
    unfold blank in H. congruence.
Qed.

Lemma prefix_refl (s : string) : String.prefix s s = true.
Proof.
  induction s as [|c s IH]; simpl; [reflexivity|].
  destruct (ascii_dec c c); [exact IH | contradiction].
Qed.

(** A string includes each of its suffixes. *)
Lemma includes_suffix (a b : string) : includes (a ++ b) b = true.
Proof.
  induction a as [|c a IH].
  - change ("" ++ b) with b.
    destruct b as [|d b]; [reflexivity|].
    unfold includes; fold includes. now rewrite prefix_refl.
  - change (String c a ++ b) with (String c (a ++ b)).
    unfold includes; fold includes. rewrite IH. apply orb_true_r.
Qed.

Lemma append_assoc (a b c : string) : (a ++ b) ++ c = a ++ (b ++ c).
Proof. induction a as [|x a IH]; simpl; [reflexivity | now rewrite IH]. Qed.

Lemma append_empty_r (a : string) : a ++ "" = a.
Proof. induction a as [|x a IH]; simpl; [reflexivity | now rewrite IH]. Qed.

End StringFacts.

(** ** Output interpreter *)

Section Interpreter.

Context (host : Host).

(** The code, with its [TypeError] on [null] and its [catch] block,
    computes the interpreter of section 4.3. *)
Lemma parseClaudeOutput_spec (stdout : string) :
  parseClaudeOutput host stdout = Return (Spec.parse host stdout).
Proof.
  unfold parseClaudeOutput, parseClaudeOutput_try, Spec.parse.
  destruct (JSON_parse host stdout) as [parsed|]; [|reflexivity].
  destruct parsed as [| |b|n|s|l|o]; try reflexivity.
  cbn [bind member try_catch Spec.string_field Spec.bool_field].
  unfold prop.
  destruct (lookup o "result") as [[| |b|n|r|l|o']|]; try reflexivity.
  cbn [bind try_catch].
  destruct (lookup o "session_id") as [[| |b1|n1|s1|l1|o1]|];
    destruct (lookup o "is_error") as [[| |b2|n2|s2|l2|o2]|]; reflexivity.
Qed.

Lemma string_field_object (o : JsObject) (k r : string) :
  Spec.string_field (JObject o) k = Some r <-> lookup o k = Some (JString r).
Proof.
  simpl. destruct (lookup o k) as [[| |b|n|s|l|o']|]; split; congruence.
Qed.

Lemma bool_field_object (o : JsObject) (k : string) (b : bool) :
  Spec.bool_field (JObject o) k = Some b <-> lookup o k = Some (JBool b).
Proof.
  simpl. destruct (lookup o k) as [[| |b'|n|s|l|o']|]; split; congruence.
Qed.

End Interpreter.

(** C2. [parseClaudeOutput] never throws, whatever the text on standard
    output. When the text parses as an object whose [result] is a string,
    the answer has that string as [resultText], [session_id] as [sessionId]
    when it is a string (none otherwise) and [is_error] as [isError] when it
    is a boolean (none otherwise). When parsing fails, or succeeds with
    [result] missing or not a string, the answer is the whole raw text with
    neither [sessionId] nor [isError]. *)
Theorem C2_parse_total (host : Host) (stdout : string) :
  (exists n, parseClaudeOutput host stdout = Return n) /\
  (forall o r, JSON_parse host stdout = Some (JObject o) ->
     lookup o "result" = Some (JString r) ->
     exists n, parseClaudeOutput host stdout = Return n /\
       resultText n = r /\
       (forall s, lookup o "session_id" = Some (JString s) -> sessionId n = Some s) /\
       ((forall s, lookup o "session_id" <> Some (JString s)) -> sessionId n = None) /\
       (forall b, lookup o "is_error" = Some (JBool b) -> isError n = Some b) /\
       ((forall b, lookup o "is_error" <> Some (JBool b)) -> isError n = None)) /\
  (JSON_parse host stdout = None ->
     parseClaudeOutput host stdout = Return (mkNormalizedResult stdout None None)) /\
  (forall parsed, JSON_parse host stdout = Some parsed ->
     (forall o r, parsed = JObject o -> lookup o "result" <> Some (JString r)) ->
     parseClaudeOutput host stdout = Return (mkNormalizedResult stdout None None)).
Proof.
  rewrite parseClaudeOutput_spec. unfold Spec.parse.
  split; [eauto|]. split; [|split].
  - intros o r Hp Hr. rewrite Hp.
    apply string_field_object in Hr. rewrite Hr.
    eexists. split; [reflexivity|]. cbn [resultText sessionId isError].
    repeat split.
    + intros s Hs. now apply string_field_object.
    + intros Hno. destruct (Spec.string_field (JObject o) "session_id") as [s|] eqn:E;
        [|reflexivity].
      apply string_field_object in E. now destruct (Hno s).
    + intros b Hb. now apply bool_field_object.
    + intros Hno. destruct (Spec.bool_field (JObject o) "is_error") as [b|] eqn:E;
        [|reflexivity].
      apply bool_field_object in E. now destruct (Hno b).
  - intros Hp. now rewrite Hp.
  - intros parsed Hp Hno. rewrite Hp.
    destruct (Spec.string_field parsed "result") as [r|] eqn:E; [|reflexivity].
    destruct parsed as [| |b|n|s|l|o]; try discriminate.
    apply string_field_object in E. now destruct (Hno o r eq_refl).
Qed.

Lemma C2_parse_total_witness :
  (exists n, parseClaudeOutput (Demo.host None false []) Demo.empty_session_json
             = Return n /\
     resultText n = "ok" /\ sessionId n = Some "" /\ isError n = Some true) /\
  parseClaudeOutput (Demo.host None false []) "done"
  = Return (mkNormalizedResult "done" None None) /\
  parseClaudeOutput (Demo.host None false []) "{}"
  = Return (mkNormalizedResult "{}" None None).
Proof.
  pose proof (C2_parse_total (Demo.host None false []) Demo.empty_session_json)
    as (_ & Hobj & _).
  pose proof (C2_parse_total (Demo.host None false []) "done") as (_ & _ & Hfail & _).
  pose proof (C2_parse_total (Demo.host None false []) "{}") as (_ & _ & _ & Hmiss).
  split; [|split].
  - destruct (Hobj _ "ok" eq_refl eq_refl) as (n & Hn & Hr & Hs & _ & Hb & _).
    exists n. repeat split; [exact Hn | exact Hr | | ].
    + apply Hs. reflexivity.
    + apply Hb. reflexivity.
  - apply Hfail. reflexivity.
  - apply (Hmiss (JObject [])); [reflexivity|].
    intros o r Ho. injection Ho as <-. discriminate.
Defined.

(** ** Validation *)

Section Validation.

Context (host : Host).

Lemma prop_lookup (o : JsObject) (k : string) (v : JsValue) :
  lookup o k = Some v -> prop o k = v.
Proof. unfold prop. now intros ->. Qed.

Lemma required_nonempty_string_ok (v : JsValue) (name s : string) :
  required_nonempty_string v name = Return s <-> v = JString s /\ s <> "".
Proof.
  unfold required_nonempty_string. split.
  - destruct v as [| |b|n|s'|l|o]; try discriminate. simpl.
    destruct (String.eqb_spec s' ""); simpl; [discriminate|].
    intros [= <-]. now split.
  - intros [-> Hne]. simpl.
    destruct (String.eqb_spec s ""); [contradiction | reflexivity].
Qed.

Lemma required_prompt_ok (toolArguments : option JsObject) (p : string) :
  required_prompt toolArguments = Return p
  <-> opt_prop toolArguments "prompt" = JString p.
Proof.
  unfold required_prompt, opt_prop, has, prop.
  destruct toolArguments as [o|]; [|split; discriminate].
  destruct (lookup o "prompt") as [[| |b|n|s|l|o']|]; split; congruence.
Qed.

(** The fresh-conversation operation with a string prompt. *)
Lemma validate_fresh (toolArguments : option JsObject) (p : string) :
  opt_prop toolArguments "prompt" = JString p ->
  validate host "claude_code" toolArguments
  = (effectiveCwd <- resolveWorkFolder host (opt_prop toolArguments "workFolder") ;;
     Return (["--dangerously-skip-permissions"; "-p"; "--output-format"; "json"; p],
             effectiveCwd)).
Proof.
  intros Hp. apply required_prompt_ok in Hp.
  unfold validate. tool_name.
  now rewrite Hp.
Qed.

(** The resume operation with non-empty [threadId] and [prompt]. *)
Lemma validate_reply (toolArguments : option JsObject) (t p : string) :
  opt_prop toolArguments "threadId" = JString t -> t <> "" ->
  opt_prop toolArguments "prompt" = JString p -> p <> "" ->
  validate host "claude_code_reply" toolArguments
  = (effectiveCwd <- resolveWorkFolder host (opt_prop toolArguments "workFolder") ;;
     Return (["--dangerously-skip-permissions"; "-p"; "--output-format"; "json";
              "--resume"; t; p], effectiveCwd)).
Proof.
  intros Ht Hnt Hp Hnp.
  unfold validate. tool_name.
  rewrite Ht, Hp.
  rewrite (proj2 (required_nonempty_string_ok (JString t) "threadId" t)) by now split.
  rewrite (proj2 (required_nonempty_string_ok (JString p) "prompt" p)) by now split.
  reflexivity.
Qed.

(** Whatever passes validation has one of the two shapes above. *)
Lemma validate_inv (toolName : string) (toolArguments : option JsObject)
    (claudeProcessArgs : list string) (effectiveCwd : string) :
  validate host toolName toolArguments = Return (claudeProcessArgs, effectiveCwd) ->
  resolveWorkFolder host (opt_prop toolArguments "workFolder") = Return effectiveCwd /\
  exists p, opt_prop toolArguments "prompt" = JString p /\
    ((toolName = "claude_code" /\
      claudeProcessArgs
      = ["--dangerously-skip-permissions"; "-p"; "--output-format"; "json"; p]) \/
     (toolName = "claude_code_reply" /\ p <> "" /\
      exists t, opt_prop toolArguments "threadId" = JString t /\ t <> "" /\
        claudeProcessArgs
        = ["--dangerously-skip-permissions"; "-p"; "--output-format"; "json";
           "--resume"; t; p])).
Proof.
  unfold validate.
  destruct (String.eqb_spec toolName "claude_code") as [->|Hn1].
  - tool_name.
    destruct (required_prompt toolArguments) as [p|e] eqn:Hp; [|discriminate].
    apply required_prompt_ok in Hp. cbn [bind].
    destruct (resolveWorkFolder host _) as [c|e]; [|discriminate].
    cbn [bind]. intros [= <- <-]. split; [reflexivity|].
    exists p. split; [exact Hp|]. now left.
  - destruct (String.eqb_spec toolName "claude_code_reply") as [->|Hn2];
      [|discriminate].
    cbn [negb andb].
    destruct (required_nonempty_string _ "threadId") as [t|e] eqn:Ht; [|discriminate].
    apply required_nonempty_string_ok in Ht as [Ht Hnt]. cbn [bind].
    destruct (required_nonempty_string _ "prompt") as [p|e] eqn:Hp; [|discriminate].
    apply required_nonempty_string_ok in Hp as [Hp Hnp]. cbn [bind].
    destruct (resolveWorkFolder host _) as [c|e]; [|discriminate].
    cbn [bind]. intros [= <- <-]. split; [reflexivity|].
    exists p. split; [exact Hp|]. right. split; [reflexivity|]. split; [exact Hnp|].
    exists t. now repeat split.
Qed.

(** Validation throws nothing but protocol errors. *)
Lemma resolveWorkFolder_throws (workFolder : JsValue) (e : Exn) :
  resolveWorkFolder host workFolder = Throw e ->
  exists m, e = McpError InvalidParams m.
Proof.
  unfold resolveWorkFolder.
  destruct workFolder as [| |b|n|w|l|o]; try discriminate.
  destruct (trim w =? ""); [intros [= <-]; eauto|].
  destruct (truthy (JString w)); [|discriminate].
  destruct (existsSync host (pathResolve host w)); [discriminate|].
  intros [= <-]; eauto.
Qed.

Lemma required_nonempty_string_throws (v : JsValue) (name : string) (e : Exn) :
  required_nonempty_string v name = Throw e ->
  e = McpError InvalidParams ("Missing or invalid required parameter: " ++ name).
Proof.
  unfold required_nonempty_string.
  destruct v as [| |b|n|w|l|o]; try (now intros [= <-]).
  destruct (truthy (JString w)); [discriminate | now intros [= <-]].
Qed.

Lemma required_prompt_throws (toolArguments : option JsObject) (e : Exn) :
  required_prompt toolArguments = Throw e ->
  e = McpError InvalidParams missing_prompt_message.
Proof.
  unfold required_prompt.
  destruct toolArguments as [o|]; [|now intros [= <-]].
  destruct (has o "prompt"); [|now intros [= <-]].
  destruct (prop o "prompt"); now intros [= <-].
Qed.

Lemma validate_required_ok (toolName : string) (toolArguments : option JsObject) :
  valid_required_fields toolName toolArguments ->
  exists claudeProcessArgs,
    validate host toolName toolArguments
    = (effectiveCwd <- resolveWorkFolder host (opt_prop toolArguments "workFolder") ;;
       Return (claudeProcessArgs, effectiveCwd)).
Proof.
  intros (p & Hp & [-> | (-> & Hnp & t & Ht & Hnt)]).
  - eexists. exact (validate_fresh _ _ Hp).
  - eexists. exact (validate_reply _ _ _ Ht Hnt Hp Hnp).
Qed.

(** A working directory that is refused fails either operation with
    invalid-params, whatever the other fields are. *)
Lemma validate_workFolder_refused (toolName : string)
    (toolArguments : option JsObject) (e : Exn) :
  toolName = "claude_code" \/ toolName = "claude_code_reply" ->
  resolveWorkFolder host (opt_prop toolArguments "workFolder") = Throw e ->
  exists m, validate host toolName toolArguments = Throw (McpError InvalidParams m).
Proof.
  intros Htool Hw. destruct (resolveWorkFolder_throws _ _ Hw) as [m ->].
  unfold validate. destruct Htool as [-> | ->];
    tool_name.
  - destruct (required_prompt toolArguments) as [p|e] eqn:Hp.
    + cbn [bind]. rewrite Hw. cbn [bind]. eauto.
    + apply required_prompt_throws in Hp as ->. cbn [bind]. eauto.
  - destruct (required_nonempty_string _ "threadId") as [t|e] eqn:Ht.
    + cbn [bind].
      destruct (required_nonempty_string _ "prompt") as [p|e] eqn:Hp.
      * cbn [bind]. rewrite Hw. cbn [bind]. eauto.
      * apply required_nonempty_string_throws in Hp as ->. cbn [bind]. eauto.
    + apply required_nonempty_string_throws in Ht as ->. cbn [bind]. eauto.
Qed.

Lemma lookup_omit (k k' : string) (o : JsObject) :
  lookup (Spec.omit k o) k' = if k =? k' then None else lookup o k'.
Proof.
  induction o as [|[k0 v] o IH]; simpl.
  - now destruct (k =? k').
  - destruct (String.eqb_spec k0 k) as [->|Hk0].
    + rewrite IH. destruct (String.eqb_spec k k'); reflexivity.
    + simpl. rewrite IH.
      destruct (String.eqb_spec k0 k') as [->|Hk0'].
      * destruct (String.eqb_spec k k'); [congruence | reflexivity].
      * reflexivity.
Qed.

(** Validation reads three keys of the argument record and nothing else. *)
Lemma validate_ext (toolName : string) (o1 o2 : JsObject) :
  lookup o1 "threadId" = lookup o2 "threadId" ->
  lookup o1 "prompt" = lookup o2 "prompt" ->
  resolveWorkFolder host (prop o1 "workFolder")
  = resolveWorkFolder host (prop o2 "workFolder") ->
  validate host toolName (Some o1) = validate host toolName (Some o2).
Proof.
  intros Ht Hp Hw.
  unfold validate, required_prompt, opt_prop, has, prop in *.
  now rewrite Ht, Hp, Hw.
Qed.

End Validation.

(** ** The [try] block *)

Section Invocation.

Context (host : Host) (claudeCliPath : string).

Lemma catch_block_internal (e : Exn) :
  (forall c m, e = McpError c m -> c = InternalError) ->
  exists m, catch_block e = McpError InternalError m.
Proof.
  destruct e as [c m|e]; simpl.
  - intros H. rewrite (H c m eq_refl). eauto.
  - intros _. unfold execution_failure.
    match goal with |- context [if ?b then _ else _] =>
      destruct b end; eauto.
Qed.

(** Once the child is spawned the handler is fulfilled, stays pending, or
    fails with an internal error. *)
Lemma invoke_completion (claudeProcessArgs : list string) (effectiveCwd : string) :
  let run := invoke host claudeCliPath claudeProcessArgs effectiveCwd in
  spawned run = [mkSpawnCall claudeCliPath claudeProcessArgs
                   (mkSpawnOptions executionTimeoutMs effectiveCwd)] /\
  (completion run = Pending \/
   (exists r, completion run = Fulfilled r) \/
   (exists m, completion run = Rejected (McpError InternalError m))).
Proof.
  unfold invoke. cbn [spawned completion]. split; [reflexivity|].
  destruct (spawnAsync _ _ _ _) as [[out err|e]|]; [| |now left].
  - rewrite parseClaudeOutput_spec. right; left; eauto.
  - right; right.
    destruct (catch_block_internal (Error e)) as [m Hm]; [discriminate|].
    rewrite Hm. eauto.
Qed.

Lemma invoke_not_invalid_params (claudeProcessArgs : list string)
    (effectiveCwd m : string) :
  completion (invoke host claudeCliPath claudeProcessArgs effectiveCwd)
  <> Rejected (McpError InvalidParams m).
Proof.
  destruct (invoke_completion claudeProcessArgs effectiveCwd)
    as (_ & [H | [[r H] | [m' H]]]); rewrite H; discriminate.
Qed.

End Invocation.

(** ** The argument vector *)

(** C1. A fresh conversation hands the process layer the safety flag, the
    non-interactive flag and the output-format pair followed by the prompt;
    a resumed one hands it the same flags, the resume flag with the session
    identifier, and the prompt. The prompt is the last element, as given.
    No other argument vector reaches the process layer. *)
Theorem C1_argument_vector (host : Host) (cli : string)
    (toolArguments : option JsObject) :
  (forall p cwd,
     opt_prop toolArguments "prompt" = JString p ->
     resolveWorkFolder host (opt_prop toolArguments "workFolder") = Return cwd ->
     spawned (callTool host cli "claude_code" toolArguments)
     = [mkSpawnCall cli
          ["--dangerously-skip-permissions"; "-p"; "--output-format"; "json"; p]
          (mkSpawnOptions 1800000 cwd)]) /\
  (forall t p cwd,
     opt_prop toolArguments "threadId" = JString t -> t <> "" ->
     opt_prop toolArguments "prompt" = JString p -> p <> "" ->
     resolveWorkFolder host (opt_prop toolArguments "workFolder") = Return cwd ->
     spawned (callTool host cli "claude_code_reply" toolArguments)
     = [mkSpawnCall cli
          ["--dangerously-skip-permissions"; "-p"; "--output-format"; "json";
           "--resume"; t; p]
          (mkSpawnOptions 1800000 cwd)]) /\
  (forall toolName call,
     In call (spawned (callTool host cli toolName toolArguments)) ->
     exists p, opt_prop toolArguments "prompt" = JString p /\
       last (args call) "" = p /\
       ((toolName = "claude_code" /\
         args call
         = ["--dangerously-skip-permissions"; "-p"; "--output-format"; "json"; p]) \/
        (toolName = "claude_code_reply" /\
         exists t, opt_prop toolArguments "threadId" = JString t /\
           args call
           = ["--dangerously-skip-permissions"; "-p"; "--output-format"; "json";
              "--resume"; t; p]))).
Proof.
  split; [|split].
  - intros p cwd Hp Hw. unfold callTool.
    rewrite (validate_fresh host _ _ Hp), Hw. reflexivity.
  - intros t p cwd Ht Hnt Hp Hnp Hw. unfold callTool.
    rewrite (validate_reply host _ _ _ Ht Hnt Hp Hnp), Hw. reflexivity.
  - intros toolName call. unfold callTool.
    destruct (validate host toolName toolArguments) as [[a c]|e] eqn:Hv;
      [|intros []].
    apply validate_inv in Hv as (_ & p & Hp & Hshape).
    cbn [invoke spawned]. intros [<- | []]. cbn [args].
    exists p. split; [exact Hp|].
    destruct Hshape as [(-> & ->) | (-> & _ & t & Ht & _ & ->)].
    + split; [reflexivity|]. now left.
    + split; [reflexivity|]. right. split; [reflexivity|]. now exists t.
Qed.

Lemma C1_argument_vector_witness :
  let targs := Some [("threadId", JString "abc123");
                     ("prompt", JString "echo $HOME; 'x'");
                     ("workFolder", JString "/tmp")] in
  spawned (callTool (Demo.host None false []) Demo.cli "claude_code" targs)
  = [mkSpawnCall "claude"
       ["--dangerously-skip-permissions"; "-p"; "--output-format"; "json";
        "echo $HOME; 'x'"]
       (mkSpawnOptions 1800000 "/tmp")] /\
  spawned (callTool (Demo.host None false []) Demo.cli "claude_code_reply" targs)
  = [mkSpawnCall "claude"
       ["--dangerously-skip-permissions"; "-p"; "--output-format"; "json";
        "--resume"; "abc123"; "echo $HOME; 'x'"]
       (mkSpawnOptions 1800000 "/tmp")] /\
  exists p, opt_prop targs "prompt" = JString p /\
    last ["--dangerously-skip-permissions"; "-p"; "--output-format"; "json";
          "--resume"; "abc123"; "echo $HOME; 'x'"] "" = p.
Proof.
  intros targs.
  destruct (C1_argument_vector (Demo.host None false []) Demo.cli targs)
    as (Hfresh & Hresume & Hall).
  split; [|split].
  - apply Hfresh; reflexivity.
  - apply Hresume; try reflexivity; discriminate.
  - destruct (Hall "claude_code_reply"
                (mkSpawnCall "claude"
                   ["--dangerously-skip-permissions"; "-p"; "--output-format";
                    "json"; "--resume"; "abc123"; "echo $HOME; 'x'"]
                   (mkSpawnOptions 1800000 "/tmp")))
      as (p & Hp & Hlast & _).
    + left. reflexivity.
    + exists p. split; [exact Hp | exact Hlast].
Defined.

(** ** The working directory *)

(** C3. For either operation, a [workFolder] that is an empty or
    all-whitespace string, and a [workFolder] that resolves to a path that
    does not exist, fail the handler with invalid-params and no child
    process is spawned. The resolver's error for a path that does not exist
    carries the resolved path, and it is the handler's error when the
    required fields are in order. *)
Theorem C3_workFolder_rejected (host : Host) (cli toolName : string)
    (toolArguments : option JsObject) (w : string) :
  toolName = "claude_code" \/ toolName = "claude_code_reply" ->
  opt_prop toolArguments "workFolder" = JString w ->
  (blank w ->
     (exists m, callTool host cli toolName toolArguments
                = mkHandlerRun [] (Rejected (McpError InvalidParams m))) /\
     (valid_required_fields toolName toolArguments ->
      callTool host cli toolName toolArguments
      = mkHandlerRun [] (Rejected (McpError InvalidParams
                                     "workFolder cannot be an empty string")))) /\
  (~ blank w -> existsSync host (pathResolve host w) = false ->
     (exists m, callTool host cli toolName toolArguments
                = mkHandlerRun [] (Rejected (McpError InvalidParams m))) /\
     (exists m, resolveWorkFolder host (JString w) = Throw (McpError InvalidParams m) /\
        includes m (pathResolve host w) = true /\
        (valid_required_fields toolName toolArguments ->
         callTool host cli toolName toolArguments
         = mkHandlerRun [] (Rejected (McpError InvalidParams m))))).
Proof.
  intros Htool Hw. unfold callTool. split.
  - intros Hb.
    assert (Hr : resolveWorkFolder host (opt_prop toolArguments "workFolder")
                 = Throw (McpError InvalidParams "workFolder cannot be an empty string")).
    { rewrite Hw. unfold resolveWorkFolder. rewrite trim_eqb_blankb.
      unfold blank in Hb. now rewrite Hb. }
    split.
    + destruct (validate_workFolder_refused host _ _ _ Htool Hr) as [m ->]. eauto.
    + intros Hv. destruct (validate_required_ok host _ _ Hv) as [a ->].
      now rewrite Hr.
  - intros Hnb Hex.
    assert (Hr : resolveWorkFolder host (opt_prop toolArguments "workFolder")
                 = Throw (McpError InvalidParams
                            ("Specified workFolder does not exist: "
                             ++ pathResolve host w))).
    { rewrite Hw. unfold resolveWorkFolder. rewrite trim_eqb_blankb.
      destruct (blankb w) eqn:Hb; [now destruct Hnb|].
      destruct w as [|c w]; [discriminate|]. simpl. now rewrite Hex. }
    split.
    + destruct (validate_workFolder_refused host _ _ _ Htool Hr) as [m ->]. eauto.
    + eexists. split; [rewrite <- Hw; exact Hr|].
      split; [apply includes_suffix|].
      intros Hv. destruct (validate_required_ok host _ _ Hv) as [a ->].
      now rewrite Hr.
Qed.

Lemma C3_workFolder_rejected_witness :
  callTool (Demo.host None false [CloseEvent (Some 0%Z) None]) Demo.cli "claude_code"
    (Some [("prompt", JString "hi"); ("workFolder", JString ("  " ++ nl))])
  = mkHandlerRun [] (Rejected (McpError InvalidParams
                                 "workFolder cannot be an empty string")) /\
  exists m,
    includes m "/srv/app/missing" = true /\
    callTool (Demo.host None false [CloseEvent (Some 0%Z) None]) Demo.cli
      "claude_code_reply"
      (Some [("threadId", JString "abc123"); ("prompt", JString "hi");
             ("workFolder", JString "missing")])
    = mkHandlerRun [] (Rejected (McpError InvalidParams m)).
Proof.
  split.
  - apply (C3_workFolder_rejected _ _ "claude_code" _ ("  " ++ nl)).
    + left; reflexivity.
    + reflexivity.
    + reflexivity.
    + exists "hi". split; [reflexivity | left; reflexivity].
  - destruct (C3_workFolder_rejected
                (Demo.host None false [CloseEvent (Some 0%Z) None]) Demo.cli
                "claude_code_reply"
                (Some [("threadId", JString "abc123"); ("prompt", JString "hi");
                       ("workFolder", JString "missing")])
                "missing" (or_intror eq_refl) eq_refl) as (_ & Hmissing).
    destruct Hmissing as (_ & m & _ & Hin & Hrun); [discriminate | reflexivity |].
    exists m. split; [exact Hin|]. apply Hrun.
    exists "hi". split; [reflexivity|]. right.
    split; [reflexivity|]. split; [discriminate|].
    exists "abc123". split; [reflexivity | discriminate].
Defined.

(** C9. A [workFolder] that is present but is not a string is ignored: the
    resolver answers the home directory, the handler behaves exactly as on
    the same arguments with [workFolder] left out, every child it spawns
    runs in the home directory, and with the required fields in order the
    call goes on to the invocation and does not fail with invalid-params. *)
Theorem C9_nonstring_workFolder (host : Host) (cli toolName : string)
    (o : JsObject) (v : JsValue) :
  lookup o "workFolder" = Some v -> typeof v <> "string" ->
  resolveWorkFolder host v = Return (homedir host) /\
  callTool host cli toolName (Some o)
  = callTool host cli toolName (Some (Spec.omit "workFolder" o)) /\
  (forall call, In call (spawned (callTool host cli toolName (Some o))) ->
     cwd (options call) = homedir host) /\
  (valid_required_fields toolName (Some o) ->
   (exists claudeProcessArgs,
      callTool host cli toolName (Some o)
      = invoke host cli claudeProcessArgs (homedir host)) /\
   forall m, completion (callTool host cli toolName (Some o))
             <> Rejected (McpError InvalidParams m)).
Proof.
  intros Hl Hty.
  assert (Hr : resolveWorkFolder host v = Return (homedir host)).
  { destruct v; try reflexivity. now destruct Hty. }
  assert (Hw : resolveWorkFolder host (opt_prop (Some o) "workFolder")
               = Return (homedir host)).
  { cbn [opt_prop]. now rewrite (prop_lookup _ _ _ Hl). }
  split; [exact Hr|]. split; [|split].
  - unfold callTool.
    rewrite (validate_ext host toolName o (Spec.omit "workFolder" o));
      [reflexivity | | |].
    + now rewrite lookup_omit.
    + now rewrite lookup_omit.
    + rewrite (prop_lookup _ _ _ Hl), Hr. unfold prop.
      now rewrite lookup_omit.
  - intros call. unfold callTool.
    destruct (validate host toolName (Some o)) as [[a c]|e] eqn:Hv; [|intros []].
    apply validate_inv in Hv as (Hc & _). rewrite Hw in Hc. injection Hc as <-.
    cbn [invoke spawned]. now intros [<- | []].
  - intros Hv. destruct (validate_required_ok host _ _ Hv) as [a Ha].
    unfold callTool. rewrite Ha, Hw. cbn [bind].
    split; [now exists a|]. intros m. apply invoke_not_invalid_params.
Qed.

Lemma C9_nonstring_workFolder_witness :
  resolveWorkFolder (Demo.host None false []) (JNumber 123) = Return "/home/u" /\
  callTool (Demo.host None false []) Demo.cli "claude_code"
    (Some [("prompt", JString "Test prompt"); ("workFolder", JNumber 123)])
  = callTool (Demo.host None false []) Demo.cli "claude_code"
      (Some [("prompt", JString "Test prompt")]) /\
  forall m,
    completion
      (callTool (Demo.host None false []) Demo.cli "claude_code"
         (Some [("prompt", JString "Test prompt"); ("workFolder", JNumber 123)]))
    <> Rejected (McpError InvalidParams m).
Proof.
  destruct (C9_nonstring_workFolder (Demo.host None false []) Demo.cli "claude_code"
              [("prompt", JString "Test prompt"); ("workFolder", JNumber 123)]
              (JNumber 123) eq_refl) as (Hr & Hsame & _ & Hvalid).
  - discriminate.
  - split; [exact Hr|]. split; [exact Hsame|].
    apply Hvalid. exists "Test prompt". split; [reflexivity | left; reflexivity].
Defined.

(** ** The prompt *)

(** The resume operation refuses an empty prompt although [threadId] and
    [workFolder] are in order. *)
Lemma C4_reply_rejects_empty_prompt :
  callTool (Demo.host None false [CloseEvent (Some 0%Z) None]) Demo.cli
    "claude_code_reply"
    (Some [("threadId", JString "abc123"); ("prompt", JString "");
           ("workFolder", JString "/tmp")])
  = mkHandlerRun []
      (Rejected (McpError InvalidParams
                   "Missing or invalid required parameter: prompt")).
Proof. reflexivity. Qed.

(** C4, amended. The fresh-conversation operation accepts an empty prompt:
    with a working directory that resolves, the child is spawned with the
    empty string as its last argument and the call does not fail with
    invalid-params. The resume operation refuses an empty prompt with
    invalid-params before anything is spawned, naming the prompt when
    [threadId] is in order; it goes on to the working directory exactly when
    [threadId] and [prompt] are both non-empty strings. *)
Theorem C4_empty_prompt (host : Host) (cli : string)
    (toolArguments : option JsObject) :
  opt_prop toolArguments "prompt" = JString "" ->
  (forall cwd,
     resolveWorkFolder host (opt_prop toolArguments "workFolder") = Return cwd ->
     callTool host cli "claude_code" toolArguments
     = invoke host cli
         ["--dangerously-skip-permissions"; "-p"; "--output-format"; "json"; ""]
         cwd /\
     forall m, completion (callTool host cli "claude_code" toolArguments)
               <> Rejected (McpError InvalidParams m)) /\
  (exists m, callTool host cli "claude_code_reply" toolArguments
             = mkHandlerRun [] (Rejected (McpError InvalidParams m))) /\
  (forall t, opt_prop toolArguments "threadId" = JString t -> t <> "" ->
     callTool host cli "claude_code_reply" toolArguments
     = mkHandlerRun []
         (Rejected (McpError InvalidParams
                      "Missing or invalid required parameter: prompt"))).
Proof.
  intros Hp. split; [|split].
  - intros cwd Hw. unfold callTool.
    rewrite (validate_fresh host _ _ Hp), Hw. cbn [bind].
    split; [reflexivity|]. intros m. apply invoke_not_invalid_params.
  - unfold callTool, validate. tool_name.
    destruct (required_nonempty_string _ "threadId") as [t|e] eqn:Ht.
    + rewrite Hp. cbn. eauto.
    + apply required_nonempty_string_throws in Ht as ->. cbn. eauto.
  - intros t Ht Hnt. unfold callTool, validate.
    tool_name.
    rewrite Ht, Hp.
    rewrite (proj2 (required_nonempty_string_ok (JString t) "threadId" t))
      by now split.
    reflexivity.
Qed.

Lemma C4_empty_prompt_witness :
  let targs := Some [("threadId", JString "abc123"); ("prompt", JString "");
                     ("workFolder", JString "/tmp")] in
  callTool (Demo.host None false [CloseEvent (Some 0%Z) None]) Demo.cli
    "claude_code" targs
  = invoke (Demo.host None false [CloseEvent (Some 0%Z) None]) Demo.cli
      ["--dangerously-skip-permissions"; "-p"; "--output-format"; "json"; ""]
      "/tmp" /\
  callTool (Demo.host None false [CloseEvent (Some 0%Z) None]) Demo.cli
    "claude_code_reply" targs
  = mkHandlerRun []
      (Rejected (McpError InvalidParams
                   "Missing or invalid required parameter: prompt")).
Proof.
  intros targs.
  destruct (C4_empty_prompt (Demo.host None false [CloseEvent (Some 0%Z) None])
              Demo.cli targs eq_refl) as (Hfresh & _ & Hreply).
  split.
  - apply (Hfresh "/tmp"). reflexivity.
  - apply (Hreply "abc123"); [reflexivity | discriminate].
Defined.

(** ** Executable resolver *)

(** With the bare override [my-claude] and a local installation present,
    the resolver answers the local installation. *)
Lemma C5_local_install_beats_bare_override :
  findClaudeCli (Demo.host (Some "my-claude") true []) = Return Demo.local_install /\
  path_isAbsolute (Demo.host (Some "my-claude") true []) "my-claude" = false /\
  relative_looking "my-claude" = false.
Proof. repeat split. Qed.

(** C5, amended. A bare override does not skip the local installation: the
    resolver answers the per-user local path when it exists and the bare
    name otherwise, just as it does with the default name when there is no
    override. The local path is left unconsulted only for an absolute
    override, answered as it stands, and a relative-looking one, refused. *)
Theorem C5_bare_override (host : Host) :
  let userPath := join host [homedir host; ".claude"; "local"; "claude"] in
  (forall c, env_CLAUDE_CLI_NAME host = Some c -> c <> "" ->
     path_isAbsolute host c = false -> relative_looking c = false ->
     findClaudeCli host = Return (if existsSync host userPath then userPath else c)) /\
  (env_CLAUDE_CLI_NAME host = None \/ env_CLAUDE_CLI_NAME host = Some "" ->
     findClaudeCli host
     = Return (if existsSync host userPath then userPath else "claude")) /\
  (forall c, env_CLAUDE_CLI_NAME host = Some c -> path_isAbsolute host c = true ->
     c <> "" -> findClaudeCli host = Return c) /\
  (forall c, env_CLAUDE_CLI_NAME host = Some c -> path_isAbsolute host c = false ->
     relative_looking c = true ->
     exists e, findClaudeCli host = Throw (Error e)).
Proof.
  intros userPath. unfold findClaudeCli, local_or_path, cliName_of.
  fold userPath. repeat split.
  - intros c -> Hne Habs Hrel. apply String.eqb_neq in Hne.
    now rewrite Hne, Habs, Hrel.
  - now intros [-> | ->].
  - intros c -> Habs Hne. apply String.eqb_neq in Hne. now rewrite Hne, Habs.
  - intros c -> Habs Hrel.
    destruct (String.eqb_spec c "") as [->|Hne]; [discriminate|].
    cbn [negb]. rewrite Habs, Hrel. eauto.
Qed.

Lemma C5_bare_override_witness :
  findClaudeCli (Demo.host (Some "my-claude") true []) = Return Demo.local_install /\
  findClaudeCli (Demo.host (Some "my-claude") false []) = Return "my-claude" /\
  findClaudeCli (Demo.host None false []) = Return "claude" /\
  findClaudeCli (Demo.host (Some "/opt/bin/claude") true []) = Return "/opt/bin/claude" /\
  exists e, findClaudeCli (Demo.host (Some "bin/claude") true []) = Throw (Error e).
Proof.
  pose proof (C5_bare_override (Demo.host (Some "my-claude") true [])) as (H1 & _).
  pose proof (C5_bare_override (Demo.host (Some "my-claude") false [])) as (H2 & _).
  pose proof (C5_bare_override (Demo.host None false [])) as (_ & H3 & _).
  pose proof (C5_bare_override (Demo.host (Some "/opt/bin/claude") true []))
    as (_ & _ & H4 & _).
  pose proof (C5_bare_override (Demo.host (Some "bin/claude") true []))
    as (_ & _ & _ & H5).
  split; [|split; [|split; [|split]]].
  - apply (H1 "my-claude"); try reflexivity; discriminate.
  - apply (H2 "my-claude"); try reflexivity; discriminate.
  - apply H3. left. reflexivity.
  - apply (H4 "/opt/bin/claude"); try reflexivity; discriminate.
  - apply (H5 "bin/claude"); reflexivity.
Defined.

(** ** Process runner *)

Section Runner.

Lemma dispatch_data (st : SpawnState) (ev : ChildEvent) :
  Spec.settling ev = false ->
  dispatch st ev
  = (mkSpawnState (stdout st ++ Spec.stdout_of [ev])
                  (stderr st ++ Spec.stderr_of [ev]) (settled st), None).
Proof.
  destruct st as [out err b], ev as [d|d|m pth sc|c sg]; try discriminate;
    intros _; cbn; now rewrite !append_empty_r.
Qed.

(** After settlement the error and close listeners return at once. *)
Lemma dispatch_ignored (st : SpawnState) (ev : ChildEvent) :
  settled st = true -> Spec.settling ev = true -> dispatch st ev = (st, None).
Proof.
  destruct ev as [d|d|m pth sc|c sg]; try discriminate; intros Hs _; cbn.
  - unfold on_error. now rewrite Hs.
  - unfold on_close. now rewrite Hs.
Qed.

(** Before settlement they settle, with one call. *)
Lemma dispatch_settles (st : SpawnState) (ev : ChildEvent) :
  settled st = false -> Spec.settling ev = true ->
  exists call, dispatch st ev
               = (mkSpawnState (stdout st) (stderr st) true, Some call).
Proof.
  destruct ev as [d|d|m pth sc|c sg]; try discriminate; intros Hs _; cbn.
  - unfold on_error. rewrite Hs. eauto.
  - unfold on_close. rewrite Hs. destruct c as [[|q|q]|]; eauto.
Qed.

Lemma deliver_cons (st : SpawnState) (ev : ChildEvent) (evs : list ChildEvent) :
  deliver st (ev :: evs)
  = (fst (deliver (fst (dispatch st ev)) evs),
     match snd (dispatch st ev) with
     | Some c => c :: snd (deliver (fst (dispatch st ev)) evs)
     | None => snd (deliver (fst (dispatch st ev)) evs)
     end).
Proof.
  cbn [deliver]. destruct (dispatch st ev) as [st1 call].
  cbn [fst snd]. now destruct (deliver st1 evs).
Qed.

Lemma deliver_app (st : SpawnState) (a b : list ChildEvent) :
  deliver st (a ++ b)
  = (fst (deliver (fst (deliver st a)) b),
     (snd (deliver st a) ++ snd (deliver (fst (deliver st a)) b))%list).
Proof.
  revert st. induction a as [|ev a IH]; intros st.
  - cbn. now destruct (deliver st b).
  - cbn [app]. rewrite !deliver_cons, IH. cbn [fst snd].
    now destruct (snd (dispatch st ev)).
Qed.

(** The [settled] flag is set by the first error or close event and never
    cleared. *)
Lemma deliver_settled (st : SpawnState) (evs : list ChildEvent) :
  settled (fst (deliver st evs)) = settled st || existsb Spec.settling evs.
Proof.
  revert st. induction evs as [|ev evs IH]; intros st.
  - cbn. now rewrite orb_false_r.
  - rewrite deliver_cons. cbn [fst existsb]. rewrite IH.
    destruct (Spec.settling ev) eqn:Hev.
    + destruct (settled st) eqn:Hs.
      * rewrite (dispatch_ignored st ev Hs Hev). cbn [fst]. now rewrite Hs.
      * destruct (dispatch_settles st ev Hs Hev) as [c ->]. reflexivity.
    + rewrite (dispatch_data st ev Hev). cbn [fst settled].
      now destruct (settled st).
Qed.

(** The number of calls of [resolve]/[reject] a run makes. *)
Lemma deliver_calls (st : SpawnState) (evs : list ChildEvent) :
  length (snd (deliver st evs))
  = if negb (settled st) && existsb Spec.settling evs then 1%nat else 0%nat.
Proof.
  revert st. induction evs as [|ev evs IH]; intros st.
  - cbn. now rewrite andb_false_r.
  - rewrite deliver_cons. cbn [snd existsb].
    destruct (Spec.settling ev) eqn:Hev.
    + destruct (settled st) eqn:Hs.
      * rewrite (dispatch_ignored st ev Hs Hev). cbn [fst snd].
        rewrite IH, Hs. reflexivity.
      * destruct (dispatch_settles st ev Hs Hev) as [c ->]. cbn [fst snd length].
        rewrite IH. reflexivity.
    + rewrite (dispatch_data st ev Hev). cbn [fst snd]. rewrite IH.
      reflexivity.
Qed.

(** Data events only accumulate. *)
Lemma deliver_data (st : SpawnState) (evs : list ChildEvent) :
  Forall (fun ev => Spec.settling ev = false) evs ->
  deliver st evs
  = (mkSpawnState (stdout st ++ Spec.stdout_of evs)
                  (stderr st ++ Spec.stderr_of evs) (settled st), []).
Proof.
  intros H. revert st. induction H as [|ev evs Hev _ IH]; intros st.
  - cbn. rewrite !append_empty_r. now destruct st.
  - rewrite deliver_cons, (dispatch_data st ev Hev). cbn [fst snd].
    rewrite IH. cbn [stdout stderr settled]. rewrite !append_assoc.
    destruct ev as [d|d|m pth sc|c sg]; try discriminate; cbn;
      now rewrite ?append_empty_r.
Qed.

(** The first call of a run whose first error or close event is [ev]. *)
Lemma settlements_first (pre post : list ChildEvent) (ev : ChildEvent) :
  Forall (fun ev => Spec.settling ev = false) pre ->
  settlements (pre ++ ev :: post)
  = match snd (dispatch (mkSpawnState (Spec.stdout_of pre) (Spec.stderr_of pre) false) ev)
    with
    | Some c => c :: snd (deliver (fst (dispatch (mkSpawnState (Spec.stdout_of pre) (Spec.stderr_of pre) false) ev)) post)
    | None => snd (deliver (fst (dispatch (mkSpawnState (Spec.stdout_of pre) (Spec.stderr_of pre) false) ev)) post)
    end.
Proof.
  intros Hpre. unfold settlements.
  rewrite deliver_app, (deliver_data _ _ Hpre). cbn [fst snd app spawn_init stdout stderr settled append].
  now rewrite deliver_cons.
Qed.

(** Whatever a listener of [spawnAsync] rejects with is a plain [Error]: a
    message and none of [stderr], [stdout], [signal], [code]. *)
Lemma dispatch_rejects_plain (st : SpawnState) (ev : ChildEvent)
    (st' : SpawnState) (e : ErrorObject) :
  dispatch st ev = (st', Some (Reject e)) -> e = new_Error (message e).
Proof.
  destruct ev as [d|d|m pth sc|c sg]; cbn; try discriminate.
  - unfold on_error. destruct (settled st); [discriminate|]. now intros [= _ <-].
  - unfold on_close. destruct (settled st); [discriminate|].
    destruct c as [[|q|q]|]; try discriminate; now intros [= _ <-].
Qed.

Lemma deliver_rejects_plain (st : SpawnState) (evs : list ChildEvent)
    (e : ErrorObject) :
  In (Reject e) (snd (deliver st evs)) -> e = new_Error (message e).
Proof.
  revert st. induction evs as [|ev evs IH]; intros st; [intros []|].
  rewrite deliver_cons. cbn [snd].
  destruct (dispatch st ev) as [st1 [c|]] eqn:Hd; cbn [fst snd].
  - intros [-> | Hin]; [exact (dispatch_rejects_plain _ _ _ _ Hd) | exact (IH _ Hin)].
  - apply IH.
Qed.

(** The promise of a child that came to exist follows its events. *)
Lemma spawnAsync_spawned (host : Host) (command : string)
    (args : list string) (options : SpawnOptions) (evs : list ChildEvent) :
  spawn host (mkSpawnCall command args options) = Spawned evs ->
  spawnAsync host command args options = hd_error (settlements evs).
Proof. unfold spawnAsync. now intros ->. Qed.

(** The promise of a call of [spawn] that threw is rejected with what was
    thrown. *)
Lemma spawnAsync_throws (host : Host) (command : string)
    (args : list string) (options : SpawnOptions) (t : SpawnThrow) :
  spawn host (mkSpawnCall command args options) = Throws t ->
  spawnAsync host command args options = Some (Reject (thrown_error t)).
Proof. unfold spawnAsync. now intros ->. Qed.

Lemma spawnAsync_rejects_plain (host : Host) (command : string)
    (args : list string) (options : SpawnOptions) (evs : list ChildEvent)
    (e : ErrorObject) :
  spawn host (mkSpawnCall command args options) = Spawned evs ->
  spawnAsync host command args options = Some (Reject e) ->
  e = new_Error (message e).
Proof.
  intros Hsp. rewrite (spawnAsync_spawned _ _ _ _ _ Hsp).
  unfold settlements. intros H.
  apply (deliver_rejects_plain spawn_init evs).
  destruct (snd (deliver spawn_init evs)) as [|c cs]; [discriminate|].
  injection H as ->. now left.
Qed.

End Runner.

(** A failed command whose output ends in a line break: the rejection is an
    [Error] with a message only, and the message has the output without its
    line break. *)
Lemma C7_rejection_carries_trimmed_output :
  exists e,
    spawnAsync (Demo.host None false
                  [StdoutData "out"; StdoutData nl; CloseEvent (Some 1%Z) None])
               "claude" [] (mkSpawnOptions 1800000 "/tmp")
    = Some (Reject e) /\
    message e = "Command failed with exit code 1" ++ nl ++ "Stderr: " ++ nl
                ++ "Stdout: out" /\
    includes (message e) ("out" ++ nl) = false /\
    e_stdout e = None /\ e_stderr e = None /\ e_code e = None.
Proof. eexists. repeat split. Qed.

(** C7, amended. When the close event is the first of the error and close
    events of a run, the promise is resolved with the accumulated standard
    output and standard error exactly when the exit code is 0. For every
    other exit code (a missing one included) it is rejected with an [Error]
    that has a message only: the exit code, then the accumulated standard
    error and standard output, each with leading and trailing white space
    removed. *)
Theorem C7_close_outcome (host : Host) (command : string) (args : list string)
    (options : SpawnOptions) (pre post : list ChildEvent) (code : option Z)
    (signal : option string) :
  spawn host (mkSpawnCall command args options)
  = Spawned (pre ++ CloseEvent code signal :: post) ->
  Forall (fun ev => Spec.settling ev = false) pre ->
  (code = Some 0%Z ->
     spawnAsync host command args options
     = Some (Resolve (Spec.stdout_of pre) (Spec.stderr_of pre))) /\
  (code <> Some 0%Z ->
     spawnAsync host command args options
     = Some (Reject (new_Error
         ("Command failed with exit code " ++ code_toString code ++ nl ++
          "Stderr: " ++ trim (Spec.stderr_of pre) ++ nl ++
          "Stdout: " ++ trim (Spec.stdout_of pre))))) /\
  ((exists out err, spawnAsync host command args options = Some (Resolve out err))
   <-> code = Some 0%Z).
Proof.
  intros Hev Hpre.
  assert (H : spawnAsync host command args options
              = Some (match code with
                      | Some 0%Z => Resolve (Spec.stdout_of pre) (Spec.stderr_of pre)
                      | _ => Reject (new_Error
                               (close_failure_message code (Spec.stdout_of pre)
                                                      (Spec.stderr_of pre)))
                      end)).
  { rewrite (spawnAsync_spawned _ _ _ _ _ Hev), (settlements_first _ _ _ Hpre).
    cbn [dispatch on_close settled stdout stderr].
    destruct code as [[|q|q]|]; reflexivity. }
  rewrite H. split; [|split].
  - now intros ->.
  - intros Hne. destruct code as [[|q|q]|]; try reflexivity. now destruct Hne.
  - split.
    + intros (out & err & Hres).
      destruct code as [[|q|q]|]; try discriminate. reflexivity.
    + intros ->. eauto.
Qed.

Lemma C7_close_outcome_witness :
  spawnAsync (Demo.host None false
                [StdoutData "a"; StderrData "w "; StdoutData "b";
                 CloseEvent (Some 0%Z) None])
             "claude" [] (mkSpawnOptions 1800000 "/tmp")
  = Some (Resolve "ab" "w ") /\
  spawnAsync (Demo.host None false
                [StdoutData " a"; StderrData "w "; CloseEvent None (Some "SIGKILL");
                 StdoutData "late"])
             "claude" [] (mkSpawnOptions 1800000 "/tmp")
  = Some (Reject (new_Error ("Command failed with exit code null" ++ nl ++
                             "Stderr: w" ++ nl ++ "Stdout: a"))).
Proof.
  split.
  - apply (C7_close_outcome _ "claude" [] _
             [StdoutData "a"; StderrData "w "; StdoutData "b"] [] (Some 0%Z) None).
    + reflexivity.
    + repeat constructor.
    + reflexivity.
  - apply (C7_close_outcome _ "claude" [] _
             [StdoutData " a"; StderrData "w "] [StdoutData "late"] None
             (Some "SIGKILL")).
    + reflexivity.
    + repeat constructor.
    + discriminate.
Defined.

(** C8. A run of [spawnAsync] calls [resolve] or [reject] at most once, and
    exactly once when an error or close event occurs at all. Once an error
    or close event has been observed, every later error or close event
    leaves the listener state as it is and calls neither. *)
Theorem C8_settles_once (evs : list ChildEvent) :
  (length (settlements evs) <= 1)%nat /\
  (existsb Spec.settling evs = true -> length (settlements evs) = 1%nat) /\
  (forall pre ev post,
     evs = (pre ++ ev :: post)%list ->
     existsb Spec.settling pre = true -> Spec.settling ev = true ->
     dispatch (fst (deliver spawn_init pre)) ev
     = (fst (deliver spawn_init pre), None) /\
     settlements evs = settlements pre).
Proof.
  unfold settlements. rewrite deliver_calls. cbn [spawn_init settled negb andb].
  split; [destruct (existsb Spec.settling evs); lia|].
  split; [now intros ->|].
  intros pre ev post -> Hpre Hev.
  assert (Hs : settled (fst (deliver spawn_init pre)) = true).
  { rewrite deliver_settled. cbn [spawn_init settled orb]. exact Hpre. }
  pose proof (dispatch_ignored _ _ Hs Hev) as Hd.
  split; [exact Hd|].
  rewrite deliver_app, deliver_cons, Hd. cbn [fst snd].
  pose proof (deliver_calls (fst (deliver spawn_init pre)) post) as Hn.
  rewrite Hs in Hn. cbn [negb andb] in Hn.
  destruct (snd (deliver (fst (deliver spawn_init pre)) post));
    [now rewrite app_nil_r | discriminate].
Qed.

Lemma C8_settles_once_witness :
  length (settlements
            [StdoutData "x"; ErrorEvent "spawn claude ENOENT" None None;
             CloseEvent (Some (-2)%Z) None; ErrorEvent "again" None None])
  = 1%nat /\
  settlements
    [StdoutData "x"; ErrorEvent "spawn claude ENOENT" None None;
     CloseEvent (Some (-2)%Z) None; ErrorEvent "again" None None]
  = settlements [StdoutData "x"; ErrorEvent "spawn claude ENOENT" None None].
Proof.
  destruct (C8_settles_once
              [StdoutData "x"; ErrorEvent "spawn claude ENOENT" None None;
               CloseEvent (Some (-2)%Z) None; ErrorEvent "again" None None])
    as (_ & Hone & Hign).
  split.
  - apply Hone. reflexivity.
  - apply (Hign [StdoutData "x"; ErrorEvent "spawn claude ENOENT" None None]
                (CloseEvent (Some (-2)%Z) None) [ErrorEvent "again" None None]);
      reflexivity.
Defined.

(** ** Timeout *)

(** C6. The runtime ends a child that outlives the timeout with [SIGTERM];
    the close event then has no exit code. The handler reports that run as
    an ordinary execution failure, for every request that reaches the
    invocation: whenever the child came to exist, [spawnAsync] rejects with
    an [Error] that has neither [signal] nor [code], so the handler's
    timeout test can only succeed on a message that contains [ETIMEDOUT].
    Had the error a [signal], the message would name the timeout. *)
Theorem C6_timeout_reported_as_failure :
  callTool (Demo.host None false [CloseEvent None (Some "SIGTERM")]) Demo.cli
           "claude_code" (Some [("prompt", JString "hi")])
  = mkHandlerRun
      [mkSpawnCall "claude"
         ["--dangerously-skip-permissions"; "-p"; "--output-format"; "json"; "hi"]
         (mkSpawnOptions 1800000 "/home/u")]
      (Rejected (McpError InternalError
         ("Claude CLI execution failed: Command failed with exit code null"
          ++ nl ++ "Stderr: " ++ nl ++ "Stdout: "))) /\
  (forall host cli toolName toolArguments claudeProcessArgs effectiveCwd,
     validate host toolName toolArguments
     = Return (claudeProcessArgs, effectiveCwd) ->
     spawn host (mkSpawnCall cli claudeProcessArgs
                   (mkSpawnOptions executionTimeoutMs effectiveCwd))
     = Spawned [CloseEvent None (Some "SIGTERM")] ->
     completion (callTool host cli toolName toolArguments)
     = Rejected (McpError InternalError
         ("Claude CLI execution failed: Command failed with exit code null"
          ++ nl ++ "Stderr: " ++ nl ++ "Stdout: "))) /\
  (forall host command args options evs e,
     spawn host (mkSpawnCall command args options) = Spawned evs ->
     spawnAsync host command args options = Some (Reject e) ->
     e_signal e = None /\ e_code e = None /\
     (includes (message e) "ETIMEDOUT" = false ->
      exists m, execution_failure e
                = McpError InternalError ("Claude CLI execution failed: " ++ m))) /\
  execution_failure (mkErrorObject "killed" None None (Some "SIGTERM") None)
  = McpError InternalError
      "Claude CLI command timed out after 1800s. Details: killed".
Proof.
  split; [reflexivity|]. split; [|split; [|reflexivity]].
  { intros host cli toolName toolArguments a c Hv Hsp.
    unfold callTool. rewrite Hv. unfold invoke, spawnAsync. now rewrite Hsp. }
  intros host command args options evs e Hsp He.
  apply (spawnAsync_rejects_plain _ _ _ _ _ _ Hsp) in He. rewrite He.
  cbn [e_signal e_code new_Error].
  repeat split. intros Hno. unfold execution_failure.
  cbn [message e_signal e_code e_stderr e_stdout new_Error] in *.
  rewrite Hno. cbn [orb]. eauto.
Qed.

Lemma C6_timeout_reported_as_failure_witness :
  exists m,
    execution_failure
      (new_Error ("Command failed with exit code null" ++ nl ++ "Stderr: "
                  ++ nl ++ "Stdout: "))
    = McpError InternalError ("Claude CLI execution failed: " ++ m).
Proof.
  destruct C6_timeout_reported_as_failure as (_ & _ & Hplain & _).
  destruct (Hplain (Demo.host None false [CloseEvent None (Some "SIGTERM")])
              "claude" [] (mkSpawnOptions 1800000 "/tmp")
              [CloseEvent None (Some "SIGTERM")]
              (new_Error ("Command failed with exit code null" ++ nl ++ "Stderr: "
                          ++ nl ++ "Stdout: ")) eq_refl eq_refl) as (_ & _ & Hm).
  apply Hm. reflexivity.
Defined.

(** ** The session extension *)

Lemma buildResponse_structuredContent (resultText : string)
    (sessionId : option string) (isError : option bool) :
  structuredContent (buildResponse resultText sessionId isError)
  = match sessionId with
    | Some sid => if sid =? "" then None
                  else Some (mkStructuredContent sid resultText)
    | None => None
    end.
Proof.
  unfold buildResponse. destruct sessionId as [sid|]; [|reflexivity].
  now destruct (sid =? "").
Qed.

Lemma buildResponse_content (resultText : string) (sessionId : option string)
    (isError : option bool) :
  content (buildResponse resultText sessionId isError)
  = [mkTextContent "text" resultText].
Proof.
  unfold buildResponse. destruct sessionId as [sid|]; [|reflexivity].
  now destruct (sid =? "").
Qed.

(** C10. The response of a successful invocation is built from the parse of
    the child's standard output. It has the [structuredContent] extension
    exactly when the parsed session identifier is a non-empty string; the
    extension then has that identifier as [threadId] and the result text as
    [content]. A [session_id] that is the empty string, is not a string or
    is missing leaves the response without the extension. *)
Theorem C10_session_extension (host : Host) (cli toolName : string)
    (toolArguments : option JsObject) (response : ExtendedServerResult) :
  completion (callTool host cli toolName toolArguments) = Fulfilled response ->
  exists call out err n,
    spawned (callTool host cli toolName toolArguments) = [call] /\
    spawnAsync host (command call) (args call) (options call)
    = Some (Resolve out err) /\
    parseClaudeOutput host out = Return n /\
    content response = [mkTextContent "text" (resultText n)] /\
    ((exists sc, structuredContent response = Some sc)
     <-> (exists sid, sessionId n = Some sid /\ sid <> "")) /\
    (forall sc, structuredContent response = Some sc ->
       sessionId n = Some (threadId sc) /\ sc_content sc = resultText n) /\
    (forall o r, JSON_parse host out = Some (JObject o) ->
       lookup o "result" = Some (JString r) ->
       lookup o "session_id" = Some (JString "") \/
       (forall sid, lookup o "session_id" <> Some (JString sid)) ->
       structuredContent response = None).
Proof.
  unfold callTool.
  destruct (validate host toolName toolArguments) as [[a c]|e]; [|discriminate].
  unfold invoke. cbn [spawned completion].
  destruct (spawnAsync host cli a _) as [[out err|e]|] eqn:Hs; try discriminate.
  rewrite parseClaudeOutput_spec. intros [= <-].
  exists (mkSpawnCall cli a (mkSpawnOptions executionTimeoutMs c)), out, err,
         (Spec.parse host out).
  cbn [command args options].
  split; [reflexivity|]. split; [exact Hs|].
  split; [apply parseClaudeOutput_spec|].
  split; [apply buildResponse_content|].
  rewrite buildResponse_structuredContent.
  split; [|split].
  - destruct (sessionId (Spec.parse host out)) as [sid|].
    + destruct (String.eqb_spec sid "") as [->|Hne].
      * split; [intros [sc Hsc]; discriminate|].
        intros (sid & [= <-] & Hne). now destruct Hne.
      * split; eauto.
    + split; [intros [sc Hsc]; discriminate | intros (sid & Hsid & _); discriminate].
  - intros sc. destruct (sessionId (Spec.parse host out)) as [sid|]; [|discriminate].
    destruct (sid =? ""); [discriminate|]. now intros [= <-].
  - intros o r Hp Hr Hsid. unfold Spec.parse. rewrite Hp.
    apply string_field_object in Hr. rewrite Hr. cbn [sessionId].
    destruct (Spec.string_field (JObject o) "session_id") as [sid|] eqn:E;
      [|reflexivity].
    apply string_field_object in E. destruct Hsid as [Hempty | Hnone].
    + rewrite Hempty in E. now injection E as <-.
    + now destruct (Hnone sid).
Qed.

Lemma C10_session_extension_witness :
  let h := Demo.host None false
             [StdoutData Demo.empty_session_json; CloseEvent (Some 0%Z) None] in
  let response :=
    mkExtendedServerResult [mkTextContent "text" "ok"] true None in
  completion (callTool h Demo.cli "claude_code" (Some [("prompt", JString "hi")]))
  = Fulfilled response /\
  exists call out err n,
    spawned (callTool h Demo.cli "claude_code" (Some [("prompt", JString "hi")]))
    = [call] /\
    spawnAsync h (command call) (args call) (options call) = Some (Resolve out err) /\
    parseClaudeOutput h out = Return n /\
    ((exists sc, structuredContent response = Some sc)
     <-> (exists sid, sessionId n = Some sid /\ sid <> "")).
Proof.
  intros h response.
  assert (Hrun : completion (callTool h Demo.cli "claude_code"
                               (Some [("prompt", JString "hi")]))
                 = Fulfilled response) by reflexivity.
  split; [exact Hrun|].
  destruct (C10_session_extension h Demo.cli "claude_code"
              (Some [("prompt", JString "hi")]) response Hrun)
    as (call & out & err & n & Hcall & Hres & Hn & _ & Hiff & _).
  exists call, out, err, n. repeat split; try assumption; apply Hiff.
Defined.

(** * Further properties of the server *)

(** ** Substrings *)

Section Substrings.

Lemma prefix_app (p a b : string) :
  String.prefix p a = true -> String.prefix p (a ++ b) = true.
Proof.
  revert a. induction p as [|c p IH]; intros a.
  - intros _. now destruct (a ++ b).
  - destruct a as [|d a]; simpl; [discriminate|].
    destruct (ascii_dec c d); [apply IH | discriminate].
Qed.

Lemma prefix_append (p b : string) : String.prefix p (p ++ b) = true.
Proof.
  induction p as [|c p IH]; simpl; [now destruct b|].
  destruct (ascii_dec c c); [exact IH | contradiction].
Qed.

Lemma includes_head (s p : string) :
  String.prefix p s = true -> includes s p = true.
Proof. intros H. destruct s; simpl in *; now rewrite H. Qed.

Lemma includes_app_l (a b p : string) :
  includes a p = true -> includes (a ++ b) p = true.
Proof.
  induction a as [|c a IH].
  - simpl. intros H. rewrite orb_false_r in H.
    destruct p; [|discriminate]. destruct b; reflexivity.
  - change (String c a ++ b) with (String c (a ++ b)).
    unfold includes; fold includes. intros H.
    apply orb_true_iff in H as [H | H].
    + apply (prefix_app _ _ b) in H.
      change (String c a ++ b) with (String c (a ++ b)) in H. now rewrite H.
    + rewrite (IH H). apply orb_true_r.
Qed.

Lemma includes_app_r (a b p : string) :
  includes b p = true -> includes (a ++ b) p = true.
Proof.
  intros H. induction a as [|c a IH]; [exact H|].
  change (String c a ++ b) with (String c (a ++ b)).
  unfold includes; fold includes. rewrite IH. apply orb_true_r.
Qed.

(** A string includes what it was appended from. *)
Lemma includes_mid (a p b : string) : includes (a ++ p ++ b) p = true.
Proof. apply includes_app_r, includes_head, prefix_append. Qed.

End Substrings.

(** ** Tool names and required fields *)

Section ToolList.

Context (host : Host).

Lemma listed_tool (toolName : string) :
  In toolName (map tool_name listTools)
  <-> toolName = "claude_code" \/ toolName = "claude_code_reply".
Proof. cbn. intuition congruence. Qed.

(** For a listed tool, validation throws invalid-params and nothing else. *)
Lemma validate_throws_listed (toolName : string)
    (toolArguments : option JsObject) (e : Exn) :
  toolName = "claude_code" \/ toolName = "claude_code_reply" ->
  validate host toolName toolArguments = Throw e ->
  exists m, e = McpError InvalidParams m.
Proof.
  unfold validate. intros [-> | ->]; tool_name.
  - destruct (required_prompt toolArguments) as [p|e'] eqn:Hp; cbn [bind].
    + destruct (resolveWorkFolder host _) as [c|e'] eqn:Hw; cbn [bind];
        [discriminate|].
      intros [= <-]. exact (resolveWorkFolder_throws _ _ _ Hw).
    + intros [= <-]. apply required_prompt_throws in Hp as ->. eauto.
  - destruct (required_nonempty_string _ "threadId") as [t|e'] eqn:Ht; cbn [bind].
    + destruct (required_nonempty_string _ "prompt") as [p|e'] eqn:Hp; cbn [bind].
      * destruct (resolveWorkFolder host _) as [c|e'] eqn:Hw; cbn [bind];
          [discriminate|].
        intros [= <-]. exact (resolveWorkFolder_throws _ _ _ Hw).
      * intros [= <-]. apply required_nonempty_string_throws in Hp as ->. eauto.
    + intros [= <-]. apply required_nonempty_string_throws in Ht as ->. eauto.
Qed.

Lemma validate_unlisted (toolName : string) (toolArguments : option JsObject) :
  toolName <> "claude_code" -> toolName <> "claude_code_reply" ->
  validate host toolName toolArguments
  = Throw (McpError MethodNotFound ("Tool " ++ toolName ++ " not found")).
Proof.
  intros H1 H2. unfold validate.
  apply String.eqb_neq in H1, H2. now rewrite H1, H2.
Qed.

End ToolList.

(** X1. The handler answers method-not-found exactly for the tool names that
    the tool list does not advertise; it then names the tool and spawns
    nothing, whatever the arguments are. *)
Theorem method_not_found_iff_unlisted (host : Host) (cli toolName : string)
    (toolArguments : option JsObject) :
  ((exists m, completion (callTool host cli toolName toolArguments)
              = Rejected (McpError MethodNotFound m))
   <-> ~ In toolName (map tool_name listTools)) /\
  (~ In toolName (map tool_name listTools) ->
   callTool host cli toolName toolArguments
   = mkHandlerRun []
       (Rejected (McpError MethodNotFound ("Tool " ++ toolName ++ " not found")))).
Proof.
  assert (Hun : ~ In toolName (map tool_name listTools) ->
                callTool host cli toolName toolArguments
                = mkHandlerRun []
                    (Rejected (McpError MethodNotFound
                                 ("Tool " ++ toolName ++ " not found")))).
  { intros Hn. unfold callTool. rewrite validate_unlisted; [reflexivity | |];
      intros ->; apply Hn; cbn; auto. }
  split; [|exact Hun]. split.
  - intros [m Hm] Hin. apply listed_tool in Hin. revert Hm. unfold callTool.
    destruct (validate host toolName toolArguments) as [[a c]|e] eqn:Hv.
    + destruct (invoke_completion host cli a c) as (_ & [H | [[r H] | [m' H]]]);
        rewrite H; discriminate.
    + destruct (validate_throws_listed host _ _ _ Hin Hv) as [m' ->].
      discriminate.
  - intros Hn. rewrite (Hun Hn). cbn [completion]. eauto.
Qed.

Lemma method_not_found_iff_unlisted_witness :
  callTool (Demo.host None false [CloseEvent (Some 0%Z) None]) Demo.cli
    "claude_code_cancel" (Some [("prompt", JString "hi")])
  = mkHandlerRun []
      (Rejected (McpError MethodNotFound "Tool claude_code_cancel not found")).
Proof.
  apply (method_not_found_iff_unlisted
           (Demo.host None false [CloseEvent (Some 0%Z) None]) Demo.cli
           "claude_code_cancel" (Some [("prompt", JString "hi")])).
  cbn. intros [H | [H | []]]; discriminate.
Defined.

(** X2. Every field that the tool list declares as required is enforced: a call
    of a listed tool in which such a field is missing or is not a string
    fails with invalid-params and spawns nothing. *)
Theorem required_fields_enforced (host : Host) (cli : string) (decl : ToolDecl)
    (k : string) (toolArguments : option JsObject) :
  In decl listTools -> In k (tool_required decl) ->
  (forall s, opt_prop toolArguments k <> JString s) ->
  exists m, callTool host cli (tool_name decl) toolArguments
            = mkHandlerRun [] (Rejected (McpError InvalidParams m)).
Proof.
  intros Hd Hk Hno. unfold callTool.
  destruct (validate host (tool_name decl) toolArguments) as [[a c]|e] eqn:Hv.
  - apply validate_inv in Hv as (_ & p & Hp & Hshape). exfalso.
    destruct Hd as [<- | [<- | []]]; cbn in Hk, Hshape.
    + destruct Hk as [<- | []]. exact (Hno p Hp).
    + destruct Hshape as [(Hf & _) | (_ & _ & t & Ht & _)]; [discriminate|].
      destruct Hk as [<- | [<- | []]]; [exact (Hno t Ht) | exact (Hno p Hp)].
  - destruct (validate_throws_listed host (tool_name decl) toolArguments e)
      as [m ->]; [|exact Hv|eauto].
    destruct Hd as [<- | [<- | []]]; cbn; auto.
Qed.

Lemma required_fields_enforced_witness :
  exists m,
    callTool (Demo.host None false [CloseEvent (Some 0%Z) None]) Demo.cli
      "claude_code_reply" (Some [("prompt", JString "hi"); ("threadId", JNumber 7)])
    = mkHandlerRun [] (Rejected (McpError InvalidParams m)).
Proof.
  apply (required_fields_enforced _ _
           (mkToolDecl "claude_code_reply"
              [("threadId", "string"); ("prompt", "string"); ("workFolder", "string")]
              ["threadId"; "prompt"])
           "threadId").
  - right. left. reflexivity.
  - left. reflexivity.
  - intros s. discriminate.
Defined.

(** X3. The required fields are checked in order and before the working
    directory: a resumed conversation whose [threadId] is not a non-empty
    string fails naming [threadId], whatever [prompt] and [workFolder] are;
    a fresh conversation whose [prompt] is not a string fails naming the
    prompt, whatever [workFolder] is. *)
Theorem required_fields_checked_first (host : Host) (cli : string)
    (toolArguments : option JsObject) :
  ((forall t, opt_prop toolArguments "threadId" = JString t -> t = "") ->
   callTool host cli "claude_code_reply" toolArguments
   = mkHandlerRun []
       (Rejected (McpError InvalidParams
                    "Missing or invalid required parameter: threadId"))) /\
  ((forall p, opt_prop toolArguments "prompt" <> JString p) ->
   callTool host cli "claude_code" toolArguments
   = mkHandlerRun [] (Rejected (McpError InvalidParams missing_prompt_message))).
Proof.
  unfold callTool, validate. split; intros H; tool_name.
  - destruct (required_nonempty_string _ "threadId") as [t|e] eqn:Ht.
    + apply required_nonempty_string_ok in Ht as [Ht Hnt].
      now destruct (Hnt (H t Ht)).
    + apply required_nonempty_string_throws in Ht as ->. reflexivity.
  - destruct (required_prompt toolArguments) as [p|e] eqn:Hp.
    + apply required_prompt_ok in Hp. now destruct (H p).
    + apply required_prompt_throws in Hp as ->. reflexivity.
Qed.

Lemma required_fields_checked_first_witness :
  callTool (Demo.host None false []) Demo.cli "claude_code_reply"
    (Some [("threadId", JString ""); ("prompt", JNumber 1);
           ("workFolder", JString "")])
  = mkHandlerRun []
      (Rejected (McpError InvalidParams
                   "Missing or invalid required parameter: threadId")) /\
  callTool (Demo.host None false []) Demo.cli "claude_code"
    (Some [("workFolder", JString "/nowhere")])
  = mkHandlerRun [] (Rejected (McpError InvalidParams missing_prompt_message)).
Proof.
  split.
  - apply (required_fields_checked_first (Demo.host None false []) Demo.cli).
    intros t [= <-]. reflexivity.
  - apply (required_fields_checked_first (Demo.host None false []) Demo.cli).
    intros p. discriminate.
Defined.

(** ** What a call can end in *)

Section Outcomes.

Context (host : Host).

Lemma validate_throws (toolName : string) (toolArguments : option JsObject)
    (e : Exn) :
  validate host toolName toolArguments = Throw e ->
  exists m, e = McpError MethodNotFound m \/ e = McpError InvalidParams m.
Proof.
  intros Hv.
  destruct (String.eqb_spec toolName "claude_code") as [H1|H1];
    [|destruct (String.eqb_spec toolName "claude_code_reply") as [H2|H2]].
  - destruct (validate_throws_listed host _ _ _ (or_introl H1) Hv) as [m ->]. eauto.
  - destruct (validate_throws_listed host _ _ _ (or_intror H2) Hv) as [m ->]. eauto.
  - rewrite (validate_unlisted host _ _ H1 H2) in Hv. injection Hv as <-. eauto.
Qed.

Lemma resolveWorkFolder_returns (workFolder : JsValue) (c : string) :
  resolveWorkFolder host workFolder = Return c ->
  c = homedir host \/
  exists w, workFolder = JString w /\ ~ blank w /\
            c = pathResolve host w /\ existsSync host c = true.
Proof.
  unfold resolveWorkFolder.
  destruct workFolder as [| |b|n|w|l|o]; try (intros [= <-]; now left).
  rewrite trim_eqb_blankb.
  destruct (blankb w) eqn:Hb; [discriminate|].
  destruct (truthy (JString w)); [|intros [= <-]; now left].
  destruct (existsSync host (pathResolve host w)) eqn:Hex; [|discriminate].
  intros [= <-]. right. exists w. unfold blank. repeat split; congruence.
Qed.

Lemma settlements_none_iff (evs : list ChildEvent) :
  hd_error (settlements evs) = None <-> existsb Spec.settling evs = false.
Proof.
  unfold settlements.
  pose proof (deliver_calls spawn_init evs) as Hn.
  cbn [spawn_init settled negb andb] in Hn.
  destruct (snd (deliver spawn_init evs)) as [|c cs];
    destruct (existsb Spec.settling evs); cbn in *; split; congruence.
Qed.

(** The promise stays pending exactly when the child came to exist and
    never emits an error or close event. *)
Lemma spawnAsync_pending (command : string) (args : list string)
    (options : SpawnOptions) :
  spawnAsync host command args options = None
  <-> exists evs, spawn host (mkSpawnCall command args options) = Spawned evs /\
                  existsb Spec.settling evs = false.
Proof.
  unfold spawnAsync.
  destruct (spawn host (mkSpawnCall command args options)) as [evs|t].
  - rewrite settlements_none_iff. split.
    + intros H. now exists evs.
    + now intros (evs' & [= <-] & H).
  - split; [discriminate|]. intros (evs & H & _). discriminate.
Qed.

End Outcomes.

(** X4. A call of the handler calls [spawn] at most once. It fails with a
    protocol error only, never with a plain [Error]: with method-not-found
    or invalid-params when [spawn] was not called, and with an internal
    error when it was, either because [spawn] threw, so that no child
    exists, or because the child emitted an error or close event. A call
    that is fulfilled or stays pending has started its child. *)
Theorem handler_outcomes (host : Host) (cli toolName : string)
    (toolArguments : option JsObject) :
  let run := callTool host cli toolName toolArguments in
  (length (spawned run) <= 1)%nat /\
  (forall e, completion run = Rejected e ->
     exists m,
       (spawned run = [] /\
        (e = McpError MethodNotFound m \/ e = McpError InvalidParams m)) \/
       (e = McpError InternalError m /\
        exists call, spawned run = [call] /\
          ((exists t, spawn host call = Throws t) \/
           (exists evs, spawn host call = Spawned evs /\
                        existsb Spec.settling evs = true)))) /\
  ((completion run = Pending \/ exists r, completion run = Fulfilled r) ->
   exists call evs, spawned run = [call] /\ spawn host call = Spawned evs).
Proof.
  unfold callTool.
  destruct (validate host toolName toolArguments) as [[a c]|e0] eqn:Hv.
  - cbv zeta. unfold invoke, spawnAsync. cbn [spawned completion length].
    set (call := mkSpawnCall cli a (mkSpawnOptions executionTimeoutMs c)).
    split; [lia|].
    destruct (spawn host call) as [evs|t] eqn:Hsp.
    + split.
      * intros e He.
        destruct (hd_error (settlements evs)) as [[out err|e1]|] eqn:Hs;
          try discriminate.
        { rewrite parseClaudeOutput_spec in He. discriminate. }
        destruct (catch_block_internal (Error e1)) as [m Hm]; [discriminate|].
        rewrite Hm in He. injection He as <-.
        exists m. right. split; [reflexivity|].
        exists call. split; [reflexivity|]. right. exists evs.
        split; [exact Hsp|].
        destruct (existsb Spec.settling evs) eqn:Hex; [reflexivity|].
        apply settlements_none_iff in Hex. congruence.
      * intros _. exists call, evs. split; [reflexivity | exact Hsp].
    + split.
      * intros e He.
        destruct (catch_block_internal (Error (thrown_error t))) as [m Hm];
          [discriminate|].
        rewrite Hm in He. injection He as <-.
        exists m. right. split; [reflexivity|].
        exists call. split; [reflexivity|]. left. exists t. exact Hsp.
      * destruct (catch_block_internal (Error (thrown_error t))) as [m Hm];
          [discriminate|].
        rewrite Hm. intros [H | [r H]]; discriminate.
  - cbn. split; [lia|]. split.
    + intros e [= <-]. destruct (validate_throws host _ _ _ Hv) as [m Hm].
      exists m. left. now split.
    + intros [H | [r H]]; discriminate.
Qed.

Lemma handler_outcomes_witness :
  (exists m,
     completion
       (callTool (Demo.host None false [StderrData "boom"; CloseEvent (Some 1%Z) None])
          Demo.cli "claude_code" (Some [("prompt", JString "hi")]))
     = Rejected (McpError InternalError m)) /\
  exists call evs,
    spawned (callTool (Demo.host None false [StdoutData "x"])
               Demo.cli "claude_code" (Some [("prompt", JString "hi")])) = [call] /\
    spawn (Demo.host None false [StdoutData "x"]) call = Spawned evs.
Proof.
  split.
  - destruct (handler_outcomes
                (Demo.host None false [StderrData "boom"; CloseEvent (Some 1%Z) None])
                Demo.cli "claude_code" (Some [("prompt", JString "hi")]))
      as (_ & Hrej & _).
    destruct (Hrej _ eq_refl) as (m & [(Hnone & _) | (Hm & _)]).
    + discriminate.
    + exists m. injection Hm as <-. reflexivity.
  - apply (handler_outcomes (Demo.host None false [StdoutData "x"])
             Demo.cli "claude_code" (Some [("prompt", JString "hi")])).
    left. reflexivity.
Defined.

(** X5. Whatever child the handler spawns, it runs the configured executable
    with the 30-minute timeout, in the home directory or in a resolved
    [workFolder] that exists. *)
Theorem spawned_call_shape (host : Host) (cli toolName : string)
    (toolArguments : option JsObject) (call : SpawnCall) :
  In call (spawned (callTool host cli toolName toolArguments)) ->
  command call = cli /\
  timeout (options call) = 1800000%Z /\
  (cwd (options call) = homedir host \/
   exists w, opt_prop toolArguments "workFolder" = JString w /\ ~ blank w /\
     cwd (options call) = pathResolve host w /\
     existsSync host (cwd (options call)) = true).
Proof.
  unfold callTool.
  destruct (validate host toolName toolArguments) as [[a c]|e] eqn:Hv;
    [|intros []].
  apply validate_inv in Hv as (Hw & _).
  cbn [invoke spawned]. intros [<- | []]. cbn [command options timeout cwd].
  split; [reflexivity|]. split; [reflexivity|].
  exact (resolveWorkFolder_returns host _ _ Hw).
Qed.

Lemma spawned_call_shape_witness :
  let h := Demo.host None false [] in
  let targs := Some [("prompt", JString "hi"); ("workFolder", JString "/tmp")] in
  cwd (mkSpawnOptions 1800000 "/tmp") = homedir h \/
  exists w, opt_prop targs "workFolder" = JString w /\ ~ blank w /\
    cwd (mkSpawnOptions 1800000 "/tmp") = pathResolve h w /\
    existsSync h (cwd (mkSpawnOptions 1800000 "/tmp")) = true.
Proof.
  intros h targs.
  apply (spawned_call_shape h Demo.cli "claude_code" targs
           (mkSpawnCall "claude"
              ["--dangerously-skip-permissions"; "-p"; "--output-format"; "json"; "hi"]
              (mkSpawnOptions 1800000 "/tmp"))).
  left. reflexivity.
Defined.

(** X6. A call stays pending exactly when it passes validation, [spawn] does
    not throw, and the child never emits an error or close event. *)
Theorem pending_iff_no_settling_event (host : Host) (cli toolName : string)
    (toolArguments : option JsObject) :
  completion (callTool host cli toolName toolArguments) = Pending
  <-> exists claudeProcessArgs effectiveCwd evs,
        validate host toolName toolArguments
        = Return (claudeProcessArgs, effectiveCwd) /\
        spawn host (mkSpawnCall cli claudeProcessArgs
                      (mkSpawnOptions executionTimeoutMs effectiveCwd))
        = Spawned evs /\
        existsb Spec.settling evs = false.
Proof.
  unfold callTool.
  destruct (validate host toolName toolArguments) as [[a c]|e] eqn:Hv.
  - unfold invoke. cbn [completion]. split.
    + intros H.
      assert (Hs : spawnAsync host cli a (mkSpawnOptions executionTimeoutMs c)
                   = None).
      { destruct (spawnAsync host cli a _) as [[out err|e]|]; try reflexivity.
        - rewrite parseClaudeOutput_spec in H. discriminate.
        - destruct (catch_block_internal (Error e)) as [m Hm]; [discriminate|].
          rewrite Hm in H. discriminate. }
      apply spawnAsync_pending in Hs as (evs & Hsp & Hex).
      now exists a, c, evs.
    + intros (a' & c' & evs & [= <- <-] & Hsp & Hex).
      assert (Hs : spawnAsync host cli a (mkSpawnOptions executionTimeoutMs c)
                   = None) by (apply spawnAsync_pending; now exists evs).
      now rewrite Hs.
  - cbn. split; [discriminate|]. intros (a & c & evs & H & _). discriminate.
Qed.

Lemma pending_iff_no_settling_event_witness :
  completion
    (callTool (Demo.host None false [StdoutData "working"; StderrData "..."])
       Demo.cli "claude_code" (Some [("prompt", JString "hi")]))
  = Pending /\
  completion
    (callTool (Demo.throwing_host
                 (InvalidArgValue "argument 'args[4]' must be a string without null bytes"))
       Demo.cli "claude_code" (Some [("prompt", JString (String "000" ""))]))
  <> Pending.
Proof.
  split.
  - apply pending_iff_no_settling_event.
    exists ["--dangerously-skip-permissions"; "-p"; "--output-format"; "json"; "hi"],
           "/home/u", [StdoutData "working"; StderrData "..."].
    repeat split.
  - intros H. apply pending_iff_no_settling_event in H
      as (a & c & evs & _ & Hsp & _).
    discriminate.
Defined.

(** ** Failures of the child *)

Section Failures.

Context (host : Host).

(** What holds of every rejection a listener makes holds of the rejection
    of the promise of a child that came to exist. *)
Lemma settlements_rejects_ind (P : ErrorObject -> Prop) :
  (forall st ev st' e, dispatch st ev = (st', Some (Reject e)) -> P e) ->
  forall evs e, hd_error (settlements evs) = Some (Reject e) -> P e.
Proof.
  intros HP evs e. unfold settlements. intros H.
  assert (Hin : In (Reject e) (snd (deliver spawn_init evs))).
  { destruct (snd (deliver spawn_init evs)) as [|c cs]; [discriminate|].
    injection H as ->. now left. }
  clear H. revert Hin. generalize spawn_init as st.
  induction evs as [|ev evs IH]; intros st; [intros []|].
  rewrite deliver_cons. cbn [snd].
  destruct (dispatch st ev) as [st1 [c|]] eqn:Hd; cbn [fst snd].
  - intros [-> | Hin]; [exact (HP _ _ _ _ Hd) | exact (IH _ Hin)].
  - apply IH.
Qed.

Lemma settlements_reject_message (evs : list ChildEvent) (e : ErrorObject) :
  hd_error (settlements evs) = Some (Reject e) ->
  e = new_Error (message e) /\ message e <> "".
Proof.
  revert evs e.
  apply (settlements_rejects_ind
           (fun e => e = new_Error (message e) /\ message e <> "")).
  intros st ev st' e'.
  destruct ev as [d|d|m pth sc|c sg]; cbn; try discriminate.
  - unfold on_error. destruct (settled st); [discriminate|].
    intros [= _ <-]. split; [reflexivity|]. cbn.
    unfold append_if_present.
    destruct pth as [pth|]; [destruct (negb (pth =? ""))|];
      (destruct sc as [sc|]; [destruct (negb (sc =? ""))|]); discriminate.
  - unfold on_close. destruct (settled st); [discriminate|].
    destruct c as [[|q|q]|]; try discriminate;
      intros [= _ <-]; (split; [reflexivity | discriminate]).
Qed.

(** What the [catch] blocks can rely on, whether the rejection comes from a
    listener or from a throw of [spawn]: a message that is not empty; no
    [stderr], [stdout] or [signal]; and a [code] that the message spells
    out when it is [ETIMEDOUT]. *)
Lemma spawnAsync_reject_shape (command : string) (args : list string)
    (options : SpawnOptions) (e : ErrorObject) :
  spawnAsync host command args options = Some (Reject e) ->
  message e <> "" /\ e_stderr e = None /\ e_stdout e = None /\
  e_signal e = None /\
  (e_code e = Some "ETIMEDOUT" -> includes (message e) "ETIMEDOUT" = true).
Proof.
  unfold spawnAsync.
  destruct (spawn host (mkSpawnCall command args options)) as [evs|t].
  - intros H. apply settlements_reject_message in H as (-> & Hne).
    repeat split; try assumption. discriminate.
  - intros [= <-]. destruct t as [detail|code]; cbn.
    + repeat split; discriminate.
    + repeat split; try discriminate. now intros [= ->].
Qed.

Lemma execution_failure_shape (e : ErrorObject) :
  message e <> "" -> e_stderr e = None -> e_stdout e = None ->
  e_signal e = None ->
  (e_code e = Some "ETIMEDOUT" -> includes (message e) "ETIMEDOUT" = true) ->
  execution_failure e
  = McpError InternalError
      ((if includes (message e) "ETIMEDOUT"
        then "Claude CLI command timed out after 1800s. Details: "
        else "Claude CLI execution failed: ")
       ++ message e
       ++ (if includes (message e) "ENOENT" then cli_not_found_note else "")).
Proof.
  intros Hne Herr Hout Hsig Hcode. apply String.eqb_neq in Hne.
  unfold execution_failure. rewrite Hne, Herr, Hout, Hsig.
  cbn [append_if_present orb].
  assert (Hc : includes (message e) "ETIMEDOUT"
               || match e_code e with
                  | Some c => c =? "ETIMEDOUT"
                  | None => false
                  end
               = includes (message e) "ETIMEDOUT").
  { destruct (e_code e) as [c|]; [|apply orb_false_r].
    destruct (String.eqb_spec c "ETIMEDOUT") as [->|_]; [|apply orb_false_r].
    now rewrite Hcode. }
  rewrite Hc.
  destruct (includes (message e) "ENOENT"), (includes (message e) "ETIMEDOUT");
    rewrite ?append_empty_r; reflexivity.
Qed.

(** The [catch] block on a rejection of the process runner. *)
Lemma execution_failure_plain (msg : string) :
  msg <> "" ->
  execution_failure (new_Error msg)
  = McpError InternalError
      ((if includes msg "ETIMEDOUT"
        then "Claude CLI command timed out after 1800s. Details: "
        else "Claude CLI execution failed: ")
       ++ msg ++ (if includes msg "ENOENT" then cli_not_found_note else "")).
Proof.
  intros Hne. apply String.eqb_neq in Hne.
  unfold execution_failure.
  cbn [message e_stderr e_stdout e_signal e_code new_Error append_if_present orb].
  rewrite Hne, orb_false_r.
  destruct (includes msg "ENOENT"), (includes msg "ETIMEDOUT");
    rewrite ?append_empty_r; reflexivity.
Qed.

(** The outcome of a run whose first error or close event is a close. *)
Lemma spawnAsync_first_close (command : string) (args : list string)
    (options : SpawnOptions) (pre post : list ChildEvent) (code : option Z)
    (signal : option string) :
  spawn host (mkSpawnCall command args options)
  = Spawned (pre ++ CloseEvent code signal :: post) ->
  Forall (fun ev => Spec.settling ev = false) pre ->
  spawnAsync host command args options
  = Some (match code with
          | Some 0%Z => Resolve (Spec.stdout_of pre) (Spec.stderr_of pre)
          | _ => Reject (new_Error
                   (close_failure_message code (Spec.stdout_of pre)
                                          (Spec.stderr_of pre)))
          end).
Proof.
  intros Hev Hpre.
  rewrite (spawnAsync_spawned _ _ _ _ _ Hev), (settlements_first _ _ _ Hpre).
  cbn [dispatch on_close settled stdout stderr].
  destruct code as [[|q|q]|]; reflexivity.
Qed.

End Failures.

(** X7. When the first error or close event of a run is an error event, the
    promise is rejected, whatever follows, a close with exit code 0
    included. The message names the error, its path and system call when
    they are present, and the standard error received so far, trimmed. *)
Theorem error_event_rejects (host : Host) (command : string)
    (args : list string) (options : SpawnOptions) (pre post : list ChildEvent)
    (msg : string) (path syscall : option string) :
  spawn host (mkSpawnCall command args options)
  = Spawned (pre ++ ErrorEvent msg path syscall :: post) ->
  Forall (fun ev => Spec.settling ev = false) pre ->
  spawnAsync host command args options
  = Some (Reject (new_Error
      ("Spawn error: " ++ msg
       ++ match path with
          | Some p => if p =? "" then "" else " | Path: " ++ p
          | None => ""
          end
       ++ match syscall with
          | Some c => if c =? "" then "" else " | Syscall: " ++ c
          | None => ""
          end
       ++ nl ++ "Stderr: " ++ trim (Spec.stderr_of pre)))).
Proof.
  intros Hev Hpre.
  rewrite (spawnAsync_spawned _ _ _ _ _ Hev), (settlements_first _ _ _ Hpre).
  cbn [dispatch on_error settled stdout stderr]. cbn [hd_error].
  do 3 f_equal. unfold append_if_present.
  change ("Spawn error: " ++ msg) with ("Spawn error: " ++ msg)%string.
  destruct path as [p|]; [destruct (p =? "")|];
    (destruct syscall as [c|]; [destruct (c =? "")|]);
    cbn [negb]; rewrite ?append_assoc; cbn [append]; reflexivity.
Qed.

Lemma error_event_rejects_witness :
  spawnAsync (Demo.host None false
                [StderrData " sh: not found "; ErrorEvent "spawn EACCES" (Some "claude") None;
                 CloseEvent (Some 0%Z) None])
             "claude" [] (mkSpawnOptions 1800000 "/tmp")
  = Some (Reject (new_Error
      ("Spawn error: spawn EACCES | Path: claude" ++ nl ++ "Stderr: sh: not found"))).
Proof.
  apply (error_event_rejects _ "claude" [] _ [StderrData " sh: not found "]
           [CloseEvent (Some 0%Z) None] "spawn EACCES" (Some "claude") None).
  - reflexivity.
  - repeat constructor.
Defined.

(** X8. An internal error of the handler always comes from a rejection of the
    process runner, by a listener or by a throw of [spawn], and its message
    is built from the runner's message alone: a prefix, which is the timeout wording exactly when the runner's
    message contains [ETIMEDOUT]; the runner's message; and the note that
    the CLI was not found, exactly when the runner's message contains
    [ENOENT]. The fallback text for an empty message and the separate
    standard error and output lines never appear. *)
Theorem internal_error_message (host : Host) (cli toolName : string)
    (toolArguments : option JsObject) (m : string) :
  completion (callTool host cli toolName toolArguments)
  = Rejected (McpError InternalError m) ->
  exists call e,
    spawned (callTool host cli toolName toolArguments) = [call] /\
    spawnAsync host (command call) (args call) (options call) = Some (Reject e) /\
    message e <> "" /\
    m = (if includes (message e) "ETIMEDOUT"
         then "Claude CLI command timed out after 1800s. Details: "
         else "Claude CLI execution failed: ")
        ++ message e
        ++ (if includes (message e) "ENOENT" then cli_not_found_note else "").
Proof.
  unfold callTool. intros Hc.
  destruct (validate host toolName toolArguments) as [[a cw]|e0] eqn:Hv.
  - revert Hc. unfold invoke. cbn [completion spawned].
    destruct (spawnAsync host cli a _) as [[out err|e]|] eqn:Hs; try discriminate.
    + rewrite parseClaudeOutput_spec. discriminate.
    + destruct (spawnAsync_reject_shape host _ _ _ _ Hs)
        as (Hne & Herr & Hout & Hsig & Hcode).
      cbn [catch_block].
      rewrite (execution_failure_shape e Hne Herr Hout Hsig Hcode).
      intros [= <-]. eexists _, e. cbn [command args options].
      split; [reflexivity|]. split; [exact Hs|]. split; [exact Hne | reflexivity].
  - cbn in Hc. injection Hc as ->.
    destruct (validate_throws host _ _ _ Hv) as [m' [H | H]]; discriminate.
Qed.

Lemma internal_error_message_witness :
  exists call e,
    spawned (callTool (Demo.host None false
                         [StderrData "open /x: ENOENT"; CloseEvent (Some 1%Z) None])
               Demo.cli "claude_code" (Some [("prompt", JString "hi")])) = [call] /\
    message e <> "" /\
    "Claude CLI execution failed: Command failed with exit code 1" ++ nl ++
    "Stderr: open /x: ENOENT" ++ nl ++ "Stdout: " ++ cli_not_found_note
    = (if includes (message e) "ETIMEDOUT"
       then "Claude CLI command timed out after 1800s. Details: "
       else "Claude CLI execution failed: ")
      ++ message e
      ++ (if includes (message e) "ENOENT" then cli_not_found_note else "").
Proof.
  destruct (internal_error_message
              (Demo.host None false
                 [StderrData "open /x: ENOENT"; CloseEvent (Some 1%Z) None])
              Demo.cli "claude_code" (Some [("prompt", JString "hi")])
              ("Claude CLI execution failed: Command failed with exit code 1" ++ nl ++
               "Stderr: open /x: ENOENT" ++ nl ++ "Stdout: " ++ cli_not_found_note)
              eq_refl) as (call & e & Hcall & _ & Hne & Hm).
  exists call, e. repeat split; assumption.
Defined.

(** X9. A child that closes with a code other than 0, before any error event,
    fails the call with an internal error whose message includes the exit
    code and the trimmed standard error and standard output. *)
Theorem failure_reports_output (host : Host) (cli toolName : string)
    (toolArguments : option JsObject) (claudeProcessArgs : list string)
    (effectiveCwd : string) (pre post : list ChildEvent) (code : option Z)
    (signal : option string) :
  validate host toolName toolArguments
  = Return (claudeProcessArgs, effectiveCwd) ->
  spawn host (mkSpawnCall cli claudeProcessArgs
                (mkSpawnOptions executionTimeoutMs effectiveCwd))
  = Spawned (pre ++ CloseEvent code signal :: post) ->
  Forall (fun ev => Spec.settling ev = false) pre ->
  code <> Some 0%Z ->
  exists m,
    completion (callTool host cli toolName toolArguments)
    = Rejected (McpError InternalError m) /\
    includes m (code_toString code) = true /\
    includes m (trim (Spec.stderr_of pre)) = true /\
    includes m (trim (Spec.stdout_of pre)) = true.
Proof.
  intros Hv Hev Hpre Hcode. unfold callTool. rewrite Hv.
  unfold invoke. cbn [completion].
  rewrite (spawnAsync_first_close host _ _ _ _ _ _ _ Hev Hpre).
  assert (Hrej : match code with
                 | Some 0%Z => Resolve (Spec.stdout_of pre) (Spec.stderr_of pre)
                 | _ => Reject (new_Error (close_failure_message code
                          (Spec.stdout_of pre) (Spec.stderr_of pre)))
                 end
                 = Reject (new_Error (close_failure_message code
                             (Spec.stdout_of pre) (Spec.stderr_of pre)))).
  { destruct code as [[|q|q]|]; try reflexivity. now destruct Hcode. }
  rewrite Hrej. cbn [catch_block].
  rewrite execution_failure_plain by (unfold close_failure_message; discriminate).
  eexists. split; [reflexivity|].
  unfold close_failure_message.
  repeat split; apply includes_app_r, includes_app_l.
  - apply includes_mid.
  - do 4 apply includes_app_r. apply includes_head, prefix_append.
  - do 7 apply includes_app_r. apply includes_head, prefix_refl.
Qed.

Lemma failure_reports_output_witness :
  exists m,
    completion
      (callTool (Demo.host None false
                   [StdoutData "partial "; StderrData "boom"; CloseEvent (Some 1%Z) None])
         Demo.cli "claude_code" (Some [("prompt", JString "hi")]))
    = Rejected (McpError InternalError m) /\
    includes m "1" = true /\ includes m "boom" = true /\ includes m "partial" = true.
Proof.
  apply (failure_reports_output
           (Demo.host None false
              [StdoutData "partial "; StderrData "boom"; CloseEvent (Some 1%Z) None])
           Demo.cli "claude_code" (Some [("prompt", JString "hi")])
           ["--dangerously-skip-permissions"; "-p"; "--output-format"; "json"; "hi"]
           "/home/u" [StdoutData "partial "; StderrData "boom"] [] (Some 1%Z) None).
  - reflexivity.
  - reflexivity.
  - repeat constructor.
  - discriminate.
Defined.

(** ** Successful calls *)

Section Fulfilment.

Context (host : Host) (cli : string).

(** A fulfilled call is the response built from the parse of the standard
    output of a child that closed with exit code 0. *)
Lemma fulfilled_inv (toolName : string) (toolArguments : option JsObject)
    (response : ExtendedServerResult) :
  completion (callTool host cli toolName toolArguments) = Fulfilled response ->
  exists claudeProcessArgs effectiveCwd out err,
    validate host toolName toolArguments
    = Return (claudeProcessArgs, effectiveCwd) /\
    spawnAsync host cli claudeProcessArgs
      (mkSpawnOptions executionTimeoutMs effectiveCwd) = Some (Resolve out err) /\
    response = buildResponse (resultText (Spec.parse host out))
                             (sessionId (Spec.parse host out))
                             (isError (Spec.parse host out)).
Proof.
  unfold callTool.
  destruct (validate host toolName toolArguments) as [[a c]|e]; [|discriminate].
  unfold invoke. cbn [completion].
  destruct (spawnAsync host cli a _) as [[out err|e]|] eqn:Hs; try discriminate.
  rewrite parseClaudeOutput_spec. intros [= <-].
  now exists a, c, out, err.
Qed.

Lemma buildResponse_isError (resultText : string) (sessionId : option string)
    (isError : option bool) :
  r_isError (buildResponse resultText sessionId isError) = nullish_false isError.
Proof.
  unfold buildResponse. destruct sessionId as [sid|]; [|reflexivity].
  now destruct (sid =? "").
Qed.

End Fulfilment.

(** X10. The error flag of a response is the child's own judgement and does not
    depend on the exit code: a call is fulfilled with [isError] true
    exactly when the output of the child, which closed with exit code 0,
    parses to a record with a string [result] and a boolean [is_error] that
    is true. Raw text and a missing or non-boolean [is_error] give false. *)
Theorem response_isError (host : Host) (cli toolName : string)
    (toolArguments : option JsObject) (response : ExtendedServerResult) :
  completion (callTool host cli toolName toolArguments) = Fulfilled response ->
  exists call out err,
    spawned (callTool host cli toolName toolArguments) = [call] /\
    spawnAsync host (command call) (args call) (options call)
    = Some (Resolve out err) /\
    (r_isError response = true
     <-> exists parsed r,
           JSON_parse host out = Some parsed /\
           Spec.string_field parsed "result" = Some r /\
           Spec.bool_field parsed "is_error" = Some true).
Proof.
  intros Hf. pose proof Hf as Hrun.
  apply fulfilled_inv in Hf as (a & c & out & err & Hv & Hs & ->).
  exists (mkSpawnCall cli a (mkSpawnOptions executionTimeoutMs c)), out, err.
  cbn [command args options].
  split; [unfold callTool; now rewrite Hv|]. split; [exact Hs|].
  rewrite buildResponse_isError. unfold Spec.parse.
  destruct (JSON_parse host out) as [parsed|].
  - destruct (Spec.string_field parsed "result") as [r|] eqn:Hr.
    + cbn [isError nullish_false].
      destruct (Spec.bool_field parsed "is_error") as [[|]|] eqn:Hb.
      * split; [intros _; now exists parsed, r | reflexivity].
      * split; [discriminate|]. intros (p' & r' & [= <-] & _ & Hb'). congruence.
      * split; [discriminate|]. intros (p' & r' & [= <-] & _ & Hb'). congruence.
    + cbn. split; [discriminate|]. intros (p' & r' & [= <-] & Hr' & _). congruence.
  - cbn. split; [discriminate|]. intros (p' & r' & Hp & _). discriminate.
Qed.

Lemma response_isError_witness :
  exists call out err,
    spawned (callTool (Demo.host None false
                         [StdoutData Demo.empty_session_json; CloseEvent (Some 0%Z) None])
               Demo.cli "claude_code" (Some [("prompt", JString "hi")])) = [call] /\
    spawnAsync (Demo.host None false
                  [StdoutData Demo.empty_session_json; CloseEvent (Some 0%Z) None])
               (command call) (args call) (options call) = Some (Resolve out err) /\
    (r_isError (mkExtendedServerResult [mkTextContent "text" "ok"] true None) = true
     <-> exists parsed r,
           Demo.parse_json out = Some parsed /\
           Spec.string_field parsed "result" = Some r /\
           Spec.bool_field parsed "is_error" = Some true).
Proof.
  apply (response_isError
           (Demo.host None false
              [StdoutData Demo.empty_session_json; CloseEvent (Some 0%Z) None])
           Demo.cli "claude_code" (Some [("prompt", JString "hi")])
           (mkExtendedServerResult [mkTextContent "text" "ok"] true None)).
  reflexivity.
Defined.

(** X11. Session continuity: the [threadId] of any response that carries the
    extension is accepted by the resume operation. Sent back with a
    non-empty prompt, on any host, it is handed to the child right after
    the resume flag. *)
Theorem thread_can_be_resumed (host : Host) (cli toolName : string)
    (toolArguments : option JsObject) (response : ExtendedServerResult)
    (sc : StructuredContent) :
  completion (callTool host cli toolName toolArguments) = Fulfilled response ->
  structuredContent response = Some sc ->
  forall host' cli' p,
    p <> "" ->
    spawned (callTool host' cli' "claude_code_reply"
               (Some [("threadId", JString (threadId sc)); ("prompt", JString p)]))
    = [mkSpawnCall cli'
         ["--dangerously-skip-permissions"; "-p"; "--output-format"; "json";
          "--resume"; threadId sc; p]
         (mkSpawnOptions 1800000 (homedir host'))].
Proof.
  intros Hf Hsc host' cli' p Hp.
  apply fulfilled_inv in Hf as (a & c & out & err & _ & _ & ->).
  rewrite buildResponse_structuredContent in Hsc.
  destruct (sessionId (Spec.parse host out)) as [sid|]; [|discriminate].
  destruct (String.eqb_spec sid "") as [|Hne]; [discriminate|].
  injection Hsc as <-. cbn [threadId].
  unfold callTool.
  rewrite (validate_reply host'
             (Some [("threadId", JString sid); ("prompt", JString p)]) sid p
             eq_refl Hne eq_refl Hp).
  reflexivity.
Qed.

Lemma thread_can_be_resumed_witness :
  spawned (callTool (Demo.host None false []) Demo.cli "claude_code_reply"
             (Some [("threadId", JString "abc123"); ("prompt", JString "go on")]))
  = [mkSpawnCall "claude"
       ["--dangerously-skip-permissions"; "-p"; "--output-format"; "json";
        "--resume"; "abc123"; "go on"]
       (mkSpawnOptions 1800000 "/home/u")].
Proof.
  apply (thread_can_be_resumed
           (Demo.host None false [StdoutData Demo.ok_json; CloseEvent (Some 0%Z) None])
           Demo.cli "claude_code" (Some [("prompt", JString "hi")])
           (mkExtendedServerResult [mkTextContent "text" "ok"] false
              (Some (mkStructuredContent "abc123" "ok")))
           (mkStructuredContent "abc123" "ok")
           eq_refl eq_refl (Demo.host None false []) Demo.cli "go on").
  discriminate.
Defined.

(** ** The server object *)

Lemma findClaudeCli_returns (host : Host) (c : string) :
  findClaudeCli host = Return c ->
  (c = join host [homedir host; ".claude"; "local"; "claude"] /\
   existsSync host c = true) \/
  (c = "claude" /\
   (env_CLAUDE_CLI_NAME host = None \/ env_CLAUDE_CLI_NAME host = Some "")) \/
  (env_CLAUDE_CLI_NAME host = Some c /\ c <> "" /\
   (path_isAbsolute host c = true \/ relative_looking c = false)).
Proof.
  unfold findClaudeCli, local_or_path, cliName_of.
  destruct (existsSync host (join host _)) eqn:Hex.
  - destruct (env_CLAUDE_CLI_NAME host) as [o|]; [|intros [= <-]; now left].
    destruct (String.eqb_spec o "") as [->|Hne]; cbn [negb];
      [intros [= <-]; now left|].
    destruct (path_isAbsolute host o) eqn:Habs;
      [intros [= <-]; right; right; auto|].
    destruct (relative_looking o); [discriminate|]. intros [= <-]. now left.
  - destruct (env_CLAUDE_CLI_NAME host) as [o|]; [|intros [= <-]; right; left; auto].
    destruct (String.eqb_spec o "") as [->|Hne]; cbn [negb];
      [intros [= <-]; right; left; auto|].
    destruct (path_isAbsolute host o) eqn:Habs;
      [intros [= <-]; right; right; auto|].
    destruct (relative_looking o) eqn:Hrel; [discriminate|].
    intros [= <-]. right; right; auto.
Qed.

(** X12. A server only ever launches the local installation, which exists; the
    default name [claude]; or the override, which is then absolute or a
    bare name. With a relative-looking override that is not absolute the
    constructor throws, and no tool call is served at all. *)
Theorem served_command (host : Host) (toolName : string)
    (toolArguments : option JsObject) :
  (forall run call,
     serve host toolName toolArguments = Return run -> In call (spawned run) ->
     (command call = join host [homedir host; ".claude"; "local"; "claude"] /\
      existsSync host (command call) = true) \/
     command call = "claude" \/
     (env_CLAUDE_CLI_NAME host = Some (command call) /\
      (path_isAbsolute host (command call) = true \/
       relative_looking (command call) = false))) /\
  (forall c, env_CLAUDE_CLI_NAME host = Some c ->
     path_isAbsolute host c = false -> relative_looking c = true ->
     serve host toolName toolArguments
     = Throw (Error (new_Error invalid_cli_name_message))).
Proof.
  unfold serve. split.
  - intros run call.
    destruct (findClaudeCli host) as [cli|e] eqn:Hcli; [|discriminate].
    cbn [bind]. intros [= <-] Hin.
    assert (Hcmd : command call = cli).
    { revert Hin. unfold callTool.
      destruct (validate host toolName toolArguments) as [[a c]|e]; [|intros []].
      cbn [invoke spawned]. now intros [<- | []]. }
    rewrite Hcmd.
    destruct (findClaudeCli_returns host cli Hcli)
      as [H | [(H & _) | (H & _ & H')]]; auto.
  - intros c Henv Habs Hrel. unfold findClaudeCli. rewrite Henv.
    destruct (String.eqb_spec c "") as [->|Hne]; [discriminate|].
    cbn [negb]. now rewrite Habs, Hrel.
Qed.

Lemma served_command_witness :
  let h := Demo.host (Some "my-claude") false [] in
  let call :=
    mkSpawnCall "my-claude"
      ["--dangerously-skip-permissions"; "-p"; "--output-format"; "json"; "hi"]
      (mkSpawnOptions 1800000 "/home/u") in
  serve (Demo.host (Some "./bin/claude") true [CloseEvent (Some 0%Z) None])
        "claude_code" (Some [("prompt", JString "hi")])
  = Throw (Error (new_Error invalid_cli_name_message)) /\
  ((command call = join h [homedir h; ".claude"; "local"; "claude"] /\
    existsSync h (command call) = true) \/
   command call = "claude" \/
   (env_CLAUDE_CLI_NAME h = Some (command call) /\
    (path_isAbsolute h (command call) = true \/
     relative_looking (command call) = false))).
Proof.
  intros h call. split.
  - apply (served_command
             (Demo.host (Some "./bin/claude") true [CloseEvent (Some 0%Z) None])
             "claude_code" (Some [("prompt", JString "hi")])) with (c := "./bin/claude");
      reflexivity.
  - destruct (served_command h "claude_code" (Some [("prompt", JString "hi")]))
      as (Hcmd & _).
    apply (Hcmd (callTool h "my-claude" "claude_code"
                   (Some [("prompt", JString "hi")])) call).
    + reflexivity.
    + left. reflexivity.
Defined.

(** * The test utilities *)

(** X16. The base directory of the mocks is never empty and never [/home/node];
    it is [HOME] whenever [HOME] is set to something else, and the home
    directory of the operating system, under the same proviso, otherwise. *)
Theorem getTestMockBaseDir_usable (env_HOME : option string) (os_homedir : string) :
  let base := TestHelpers.getTestMockBaseDir env_HOME os_homedir in
  base <> "" /\ base <> "/home/node" /\
  (forall h, env_HOME = Some h -> h <> "" -> h <> "/home/node" -> base = h) /\
  (env_HOME = None \/ env_HOME = Some "" ->
   os_homedir <> "" -> os_homedir <> "/home/node" -> base = os_homedir).
Proof.
  unfold TestHelpers.getTestMockBaseDir.
  set (home := match env_HOME with
               | Some h => if negb (h =? "") then h else os_homedir
               | None => os_homedir
               end).
  assert (Hbase : forall x, home = x -> x <> "" -> x <> "/home/node" ->
            (if (home =? "") || (home =? "/home/node") then "/workspace" else home) = x).
  { intros x -> H1 H2. apply String.eqb_neq in H1, H2. now rewrite H1, H2. }
  cbv zeta. repeat split.
  - destruct (String.eqb_spec home ""); [discriminate|].
    destruct (String.eqb_spec home "/home/node"); [discriminate | assumption].
  - destruct (String.eqb_spec home ""); [discriminate|].
    destruct (String.eqb_spec home "/home/node"); [discriminate | assumption].
  - intros h -> H1 H2. apply Hbase; try assumption. subst home.
    apply String.eqb_neq in H1. now rewrite H1.
  - intros [-> | ->] H1 H2; now apply Hbase.
Qed.

Lemma getTestMockBaseDir_usable_witness :
  TestHelpers.getTestMockBaseDir (Some "/Users/dev") "/home/node" = "/Users/dev" /\
  TestHelpers.getTestMockBaseDir (Some "") "/root" = "/root".
Proof.
  destruct (getTestMockBaseDir_usable (Some "/Users/dev") "/home/node")
    as (_ & _ & Hhome & _).
  destruct (getTestMockBaseDir_usable (Some "") "/root") as (_ & _ & _ & Hos).
  split.
  - apply Hhome; [reflexivity | discriminate | discriminate].
  - apply Hos; [right; reflexivity | discriminate | discriminate].
Defined.

(** ** The line buffer of the test client *)

Section LineBuffer.

Import TestClient.

Lemma split_newline_nonempty (s : string) : split_newline s <> [].
Proof.
  destruct s as [|c s]; simpl; [discriminate|].
  destruct (Ascii.eqb c "010"); [discriminate|].
  destruct (split_newline s); discriminate.
Qed.

Lemma removelast_cons {A : Type} (x : A) (l : list A) :
  l <> [] -> removelast (x :: l) = x :: removelast l.
Proof. destruct l; [contradiction | reflexivity]. Qed.

Lemma last_cons {A : Type} (x d : A) (l : list A) :
  l <> [] -> last (x :: l) d = last l d.
Proof. destruct l; [contradiction | reflexivity]. Qed.

(** Splitting a stream that arrives in two parts: the complete lines of the
    first part, then the lines of its unfinished line followed by the
    second part. *)
Lemma split_newline_app (x y : string) :
  split_newline (x ++ y)
  = (removelast (split_newline x)
     ++ split_newline (last (split_newline x) "" ++ y))%list.
Proof.
  induction x as [|c x IH]; [reflexivity|].
  change (String c x ++ y) with (String c (x ++ y)).
  cbn [split_newline].
  pose proof (split_newline_nonempty x) as Hne.
  destruct (Ascii.eqb c "010") eqn:Hc.
  - rewrite (removelast_cons _ _ Hne), (last_cons _ _ _ Hne), IH. reflexivity.
  - rewrite IH.
    destruct (split_newline x) as [|l0 [|l1 rest]]; [contradiction| |].
    + cbn [removelast last app].
      change (String c l0 ++ y) with (String c (l0 ++ y)).
      cbn [split_newline]. now rewrite Hc.
    + reflexivity.
Qed.

Lemma includes_cons_other (c : ascii) (l : string) :
  c <> "010"%char -> includes (String c l) nl = includes l nl.
Proof.
  intros Hc. unfold includes; fold includes. unfold nl.
  change (String.prefix (String "010" "") (String c l))
    with (if ascii_dec "010" c then String.prefix "" l else false).
  destruct (ascii_dec "010" c) as [E|_]; [now destruct Hc | reflexivity].
Qed.

Lemma split_newline_no_newline (s : string) :
  Forall (fun l => includes l nl = false) (split_newline s).
Proof.
  induction s as [|c s IH]; [repeat constructor|].
  cbn [split_newline].
  destruct (Ascii.eqb_spec c "010") as [Hc|Hc]; [now constructor|].
  destruct (split_newline s) as [|l ls].
  - constructor; [|constructor]. now rewrite includes_cons_other.
  - inversion IH as [|? ? Hl Hls]; subst. constructor; [|exact Hls].
    now rewrite includes_cons_other.
Qed.

Context (host : Host).

Lemma handle_lines_app (pending : list Z) (a b : list string) :
  handle_lines host pending (a ++ b)
  = (fst (handle_lines host (fst (handle_lines host pending a)) b),
     (snd (handle_lines host pending a)
      ++ snd (handle_lines host (fst (handle_lines host pending a)) b))%list).
Proof.
  revert pending. induction a as [|line a IH]; intros pending.
  - cbn. now destruct (handle_lines host pending b).
  - cbn [app handle_lines].
    destruct (handle_line host pending line) as [p1 o1].
    rewrite IH.
    destruct (handle_lines host p1 a) as [p2 o2]. cbn [fst snd].
    now rewrite app_assoc.
Qed.

(** A line never adds a pending request; what it emits is at most one
    event, and a resolution removes the request it resolves. *)
Lemma handle_line_cases (pending : list Z) (line : string) :
  let (pending', out) := handle_line host pending line in
  (pending' = pending /\ forall n r, ~ In (Resolved n r) out) \/
  (exists n r, out = [Resolved n r] /\ In n pending /\
     pending' = delete_pending pending n /\
     JSON_parse host line = Some r /\ member r "id" = Return (JNumber n)).
Proof.
  unfold handle_line.
  destruct (trim line =? ""); [left; split; [reflexivity | intros n r []]|].
  unfold handle_line_try.
  destruct (JSON_parse host line) as [response|]; cbn [bind];
    [|left; split; [reflexivity | intros n r [H | []]; discriminate]].
  destruct (member response "id") as [id|e] eqn:Hid; cbn [bind];
    [|left; split; [reflexivity | intros n r [H | []]; discriminate]].
  destruct (truthy id && has_pending pending id) eqn:Hcond;
    [|left; split; [reflexivity | intros n r [H | []]; discriminate]].
  apply andb_true_iff in Hcond as [_ Hhas].
  destruct id as [| |b|n|s|l|o]; try discriminate.
  right. exists n, response.
  split; [reflexivity|]. split; [|now repeat split].
  cbn in Hhas. apply existsb_exists in Hhas as (k & Hk & Hnk).
  apply Z.eqb_eq in Hnk. now subst.
Qed.

Lemma delete_pending_spec (pending : list Z) (n k : Z) :
  In k (delete_pending pending n) <-> In k pending /\ k <> n.
Proof.
  unfold delete_pending. rewrite filter_In, negb_true_iff, Z.eqb_neq.
  intuition congruence.
Qed.

Lemma handle_line_shrinks (pending : list Z) (line : string) :
  incl (fst (handle_line host pending line)) pending.
Proof.
  pose proof (handle_line_cases pending line) as H.
  destruct (handle_line host pending line) as [p' o]. cbn [fst].
  destruct H as [[-> _] | (n & r & _ & _ & -> & _)]; [apply incl_refl|].
  intros k Hk. now apply delete_pending_spec in Hk.
Qed.

Lemma handle_lines_shrinks (pending : list Z) (lines : list string) :
  incl (fst (handle_lines host pending lines)) pending.
Proof.
  revert pending. induction lines as [|line lines IH]; intros pending;
    [apply incl_refl|].
  cbn [handle_lines].
  pose proof (handle_line_shrinks pending line) as H1.
  destruct (handle_line host pending line) as [p1 o1]. cbn [fst] in H1.
  pose proof (IH p1) as H2.
  destruct (handle_lines host p1 lines) as [p2 o2]. cbn [fst] in *.
  exact (incl_tran H2 H1).
Qed.

(** A resolved request was pending, is pending no more, and is the one the
    response names. *)
Lemma handle_lines_resolved (pending : list Z) (lines : list string)
    (n : Z) (r : JsValue) :
  In (Resolved n r) (snd (handle_lines host pending lines)) ->
  In n pending /\ ~ In n (fst (handle_lines host pending lines)) /\
  member r "id" = Return (JNumber n).
Proof.
  revert pending. induction lines as [|line lines IH]; intros pending; [intros []|].
  cbn [handle_lines].
  pose proof (handle_line_cases pending line) as H1.
  pose proof (handle_line_shrinks pending line) as Hs.
  destruct (handle_line host pending line) as [p1 o1]. cbn [fst] in Hs.
  pose proof (IH p1) as H2. pose proof (handle_lines_shrinks p1 lines) as Hs2.
  destruct (handle_lines host p1 lines) as [p2 o2]. cbn [fst snd] in *.
  intros Hin. apply in_app_or in Hin as [Hin | Hin].
  - destruct H1 as [[_ Hno] | (n' & r' & -> & Hn' & -> & _ & Hid)];
      [now destruct (Hno n r)|].
    destruct Hin as [[= <- <-] | []].
    split; [exact Hn'|]. split; [|exact Hid].
    intros Hp2. apply Hs2, delete_pending_spec in Hp2. now destruct Hp2.
  - destruct (H2 Hin) as (Hp1 & Hp2 & Hid). auto.
Qed.

Lemma app_eq_middle {A : Type} (a b o1 o2 : list A) (x : A) :
  (a ++ b = o1 ++ x :: o2)%list -> ~ In x a ->
  exists o1', b = (o1' ++ x :: o2)%list.
Proof.
  revert o1. induction a as [|y a IH]; intros o1 Heq Hnin; [now exists o1|].
  destruct o1 as [|z o1]; cbn in Heq; injection Heq as -> Heq.
  - destruct Hnin. now left.
  - apply (IH o1 Heq). intros Hin. apply Hnin. now right.
Qed.

Lemma handle_lines_once (pending : list Z) (lines : list string)
    (o1 o2 : list Emitted) (n : Z) (r r' : JsValue) :
  snd (handle_lines host pending lines) = (o1 ++ Resolved n r :: o2)%list ->
  ~ In (Resolved n r') o2.
Proof.
  revert pending o1. induction lines as [|line lines IH]; intros pending o1.
  - cbn. destruct o1; discriminate.
  - cbn [handle_lines].
    pose proof (handle_line_cases pending line) as H1.
    destruct (handle_line host pending line) as [p1 out1].
    pose proof (IH p1) as H2.
    pose proof (handle_lines_resolved p1 lines n r') as H3.
    destruct (handle_lines host p1 lines) as [p2 out2]. cbn [fst snd] in *.
    intros Heq Hin.
    destruct H1 as [[_ Hno] | (n' & r0 & -> & _ & -> & _)].
    + destruct (app_eq_middle _ _ _ _ _ Heq (Hno n r)) as [o1' Ho1'].
      exact (H2 o1' Ho1' Hin).
    + destruct o1 as [|z o1]; cbn in Heq.
      * injection Heq as <- <- <-.
        destruct (H3 Hin) as (Hp & _). apply delete_pending_spec in Hp.
        now destruct Hp.
      * injection Heq as _ Heq. exact (H2 o1 Heq Hin).
Qed.

End LineBuffer.

Section TestClientFacts.

Import TestClient.

Context (host : Host).

Lemma handleData_eq (c : Client) (data : string) :
  handleData host c data
  = (mkClient (last (split_newline (buffer c ++ data)) "")
       (fst (handle_lines host (pendingRequests c)
               (removelast (split_newline (buffer c ++ data))))),
     snd (handle_lines host (pendingRequests c)
            (removelast (split_newline (buffer c ++ data))))).
Proof.
  unfold handleData. now destruct (handle_lines host _ _).
Qed.

Lemma last_app_nonempty {A : Type} (a b : list A) (d : A) :
  b <> [] -> last (a ++ b) d = last b d.
Proof.
  intros Hb. induction a as [|x a IH]; [reflexivity|].
  cbn [app]. rewrite last_cons; [exact IH|].
  destruct a; [exact Hb | discriminate].
Qed.

End TestClientFacts.

(** X13. What the test client processes does not depend on how the stream of
    the server is cut into chunks: handling two chunks one after the other
    leaves the same buffer and pending requests, and emits the same events
    in the same order, as handling them joined. *)
Theorem handleData_chunking (host : Host) (c : TestClient.Client)
    (d1 d2 : string) :
  TestClient.handleData host c (d1 ++ d2)
  = (fst (TestClient.handleData host (fst (TestClient.handleData host c d1)) d2),
     (snd (TestClient.handleData host c d1)
      ++ snd (TestClient.handleData host
                (fst (TestClient.handleData host c d1)) d2))%list).
Proof.
  rewrite !handleData_eq. cbn [fst snd TestClient.buffer TestClient.pendingRequests].
  rewrite <- append_assoc, split_newline_app.
  set (L1 := TestClient.split_newline (TestClient.buffer c ++ d1)).
  set (L2 := TestClient.split_newline (last L1 "" ++ d2)).
  assert (HL2 : L2 <> []) by apply split_newline_nonempty.
  rewrite (removelast_app _ HL2), (last_app_nonempty _ _ _ HL2).
  now rewrite handle_lines_app.
Qed.

(** X14. After [handleData] the buffer holds no line break: every complete line
    has been taken out of it. *)
Theorem handleData_buffer_unfinished (host : Host) (c : TestClient.Client)
    (data : string) :
  includes (TestClient.buffer (fst (TestClient.handleData host c data))) nl
  = false.
Proof.
  rewrite handleData_eq. cbn [fst TestClient.buffer].
  pose proof (split_newline_no_newline (TestClient.buffer c ++ data)) as Hall.
  pose proof (split_newline_nonempty (TestClient.buffer c ++ data)) as Hne.
  rewrite Forall_forall in Hall. apply Hall.
  destruct (TestClient.split_newline (TestClient.buffer c ++ data)) as [|l ls];
    [contradiction|].
  clear. revert l. induction ls as [|x ls IH]; intros l; [now left|].
  right. rewrite last_cons by discriminate. apply IH.
Qed.

(** X15. [handleData] never adds a pending request. A request it resolves was
    pending, is the one whose [id] the response carries, and is pending no
    longer; no later response of the same chunk resolves it again. *)
Theorem handleData_resolves_once (host : Host) (c c' : TestClient.Client)
    (data : string) (out : list TestClient.Emitted) :
  TestClient.handleData host c data = (c', out) ->
  incl (TestClient.pendingRequests c') (TestClient.pendingRequests c) /\
  (forall n r, In (TestClient.Resolved n r) out ->
     In n (TestClient.pendingRequests c) /\
     ~ In n (TestClient.pendingRequests c') /\
     member r "id" = Return (JNumber n)) /\
  (forall o1 o2 n r r', out = (o1 ++ TestClient.Resolved n r :: o2)%list ->
     ~ In (TestClient.Resolved n r') o2).
Proof.
  rewrite handleData_eq. intros [= <- <-]. cbn [TestClient.pendingRequests].
  split; [apply handle_lines_shrinks|]. split.
  - intros n r. apply handle_lines_resolved.
  - intros o1 o2 n r r'. apply handle_lines_once.
Qed.

Lemma handleData_resolves_once_witness :
  let reply := "{" ++ dq ++ "id" ++ dq ++ ":1}" in
  let r := JObject [("id", JNumber 1)] in
  let h := mkHost None "/home/u" (fun _ => false) (fun p => startsWith p "/")
             (String.concat "/") (fun p => p)
             (fun text => if text =? reply then Some r else None)
             (fun _ => Spawned []) in
  TestClient.handleData h (TestClient.mkClient "" [1%Z; 2%Z])
    (reply ++ nl ++ "oops" ++ nl ++ reply ++ nl ++ "{")
  = (TestClient.mkClient "{" [2%Z],
     [TestClient.Resolved 1 r;
      TestClient.ParseError "Failed to parse server response: oops";
      TestClient.Notification r]) /\
  ~ In (TestClient.Resolved 1 r)
       [TestClient.ParseError "Failed to parse server response: oops";
        TestClient.Notification r].
Proof.
  intros reply r h.
  assert (Hrun : TestClient.handleData h (TestClient.mkClient "" [1%Z; 2%Z])
                   (reply ++ nl ++ "oops" ++ nl ++ reply ++ nl ++ "{")
                 = (TestClient.mkClient "{" [2%Z],
                    [TestClient.Resolved 1 r;
                     TestClient.ParseError "Failed to parse server response: oops";
                     TestClient.Notification r])) by reflexivity.
  split; [exact Hrun|].
  destruct (handleData_resolves_once h _ _ _ _ Hrun) as (_ & _ & Honce).
  apply (Honce [] _ 1%Z r r). reflexivity.
Defined.
